(** * JeVois tutorials: the FlowLK optical-flow module and the Arduino blink sketch

    Three programs of the repository are embedded here:

    - [ProgrammerInvFlowLK]: the Python class [FlowLK] of
      doc/ProgrammerInvFlowLK.dox ([__init__] and [process]);
    - [Ardublink]: the Arduino sketch doc/snip/ardublink.C ([setup] and [loop]);
    - [Tutorial]: the OpenCV script that [FlowLK] ports, quoted in
      doc/ProgrammerInvFlowLK.dox.

    OpenCV images are represented by the OpenCV calls that produced them, so
    that what was drawn on an image can be read back from it; point
    coordinates are IEEE floats, which the module only carries around. *)

From Stdlib Require Import ZArith String Ascii Bool Arith Lia PrimFloat List.
Import ListNotations.

Set Warnings "-inexact-float".

Local Open Scope Z_scope.

Module ProgrammerInvFlowLK.

(** ** Python and NumPy values *)

(** The exceptions [process] can raise on its own (not those of OpenCV). *)
Inductive Exn : Type :=
| AttributeError
| IndexError.

Inductive result (A : Type) : Type :=
| Ok (a : A)
| Raise (e : Exn).

Arguments Ok {A} a.
Arguments Raise {A} e.

Definition bind {A B : Type} (r : result A) (k : A -> result B) : result B :=
  match r with
  | Ok a => k a
  | Raise e => Raise e
  end.

Notation "x <- e ;; k" := (bind e (fun x => k))
  (at level 61, e at next level, right associativity).
Notation "' p <- e ;; k" := (bind e (fun x => match x with p => k end))
  (at level 61, p pattern, e at next level, right associativity).

(** [self.attr] on an attribute that may not have been created yet. *)
Definition getattr {A : Type} (attr : option A) : result A :=
  match attr with
  | Some a => Ok a
  | None => Raise AttributeError
  end.

(** [a[i]] for a non-negative index. *)
Definition getitem {A : Type} (a : list A) (i : nat) : result A :=
  match nth_error a i with
  | Some x => Ok x
  | None => Raise IndexError
  end.

(** [a[m]] for a boolean mask [m]: NumPy refuses a mask whose length is not
    that of [a], and otherwise keeps the rows where the mask is true, in
    order. *)
Fixpoint compress {A : Type} (a : list A) (m : list bool) : list A :=
  match a, m with
  | x :: a', b :: m' => if b then x :: compress a' m' else compress a' m'
  | _, _ => []
  end.

Definition bool_index {A : Type} (a : list A) (m : list bool) : result (list A) :=
  if Nat.eqb (length a) (length m) then Ok (compress a m) else Raise IndexError.

(** [st == 1] *)
Definition eq1 (st : list Z) : list bool := map (fun s => s =? 1) st.

(** [np.random.randint(low, high, (rows, cols))] over a stream [rng] of raw
    draws: [high] is exclusive. *)
Definition randint (low high : Z) (rows cols : nat) (rng : nat -> Z) : list (list Z) :=
  map (fun i => map (fun j => low + rng (i * cols + j)%nat mod (high - low)) (seq 0 cols))
      (seq 0 rows).

(** ** OpenCV values *)

Definition Point : Type := float * float.
Definition Scalar : Type := list Z.

Definition COLOR_BGR2GRAY : Z := 6.
Definition FONT_HERSHEY_SIMPLEX : Z := 0.
Definition LINE_AA : Z := 16.
Definition TERM_CRITERIA_COUNT : Z := 1.
Definition TERM_CRITERIA_EPS : Z := 2.

(** An image is the frame it started from and the calls made on it. *)
Inductive Mat : Type :=
| Capture (seqno : nat) (rows cols : Z)
| CvtColor (src : Mat) (code : Z)
| ZerosLike (a : Mat)
| Add (src1 src2 : Mat)
| Line (img : Mat) (pt1 pt2 : Point) (colour : Scalar) (thickness : Z)
| Circle (img : Mat) (center : Point) (radius : Z) (colour : Scalar) (thickness : Z)
| PutText (img : Mat) (text : string) (org : Z * Z) (fontFace : Z) (fontScale : float)
          (colour : Scalar) (thickness : Z) (lineType : Z).

(** [img.shape[0]] *)
Fixpoint shape0 (img : Mat) : Z :=
  match img with
  | Capture _ rows _ => rows
  | CvtColor src _ => shape0 src
  | ZerosLike a => shape0 a
  | Add src1 _ => shape0 src1
  | Line img' _ _ _ _ => shape0 img'
  | Circle img' _ _ _ _ => shape0 img'
  | PutText img' _ _ _ _ _ _ _ => shape0 img'
  end.

(** The line segments drawn on an image, oldest first, each with its colour. *)
Fixpoint segments (img : Mat) : list (Point * Point * Scalar) :=
  match img with
  | Capture _ _ _ => []
  | CvtColor src _ => segments src
  | ZerosLike _ => []
  | Add src1 src2 => segments src1 ++ segments src2
  | Line img' pt1 pt2 c _ => segments img' ++ [(pt1, pt2, c)]
  | Circle img' _ _ _ _ => segments img'
  | PutText img' _ _ _ _ _ _ _ => segments img'
  end.

(** The circles drawn on an image, oldest first, each with its colour. *)
Fixpoint markers (img : Mat) : list (Point * Scalar) :=
  match img with
  | Capture _ _ _ => []
  | CvtColor src _ => markers src
  | ZerosLike _ => []
  | Add src1 src2 => markers src1 ++ markers src2
  | Line img' _ _ _ _ => markers img'
  | Circle img' center _ c _ => markers img' ++ [(center, c)]
  | PutText img' _ _ _ _ _ _ _ => markers img'
  end.

(** The texts written on an image, oldest first. *)
Fixpoint texts (img : Mat) : list string :=
  match img with
  | Capture _ _ _ => []
  | CvtColor src _ => texts src
  | ZerosLike _ => []
  | Add src1 src2 => texts src1 ++ texts src2
  | Line img' _ _ _ _ => texts img'
  | Circle img' _ _ _ _ => texts img'
  | PutText img' text _ _ _ _ _ _ => texts img' ++ [text]
  end.

(** ** The module's state *)

Record FeatureParams : Type := {
  maxCorners : Z;
  qualityLevel : float;
  minDistance : Z;
  blockSize : Z
}.

Record LKParams : Type := {
  winSize : Z * Z;
  maxLevel : Z;
  criteria : Z * Z * float
}.

(** The attributes of a [FlowLK] object; [old_gray], [p0] and [mask] are
    created by [process], so each may be absent. *)
Record FlowLK : Type := {
  feature_params : FeatureParams;
  lk_params : LKParams;
  color : list Scalar;
  old_gray : option Mat;
  p0 : option (list Point);
  mask : option Mat
}.

Definition set_old_gray (v : option Mat) (self : FlowLK) : FlowLK :=
  {| feature_params := feature_params self; lk_params := lk_params self;
     color := color self; old_gray := v; p0 := p0 self; mask := mask self |}.

Definition set_p0 (v : option (list Point)) (self : FlowLK) : FlowLK :=
  {| feature_params := feature_params self; lk_params := lk_params self;
     color := color self; old_gray := old_gray self; p0 := v; mask := mask self |}.

Definition set_mask (v : option Mat) (self : FlowLK) : FlowLK :=
  {| feature_params := feature_params self; lk_params := lk_params self;
     color := color self; old_gray := old_gray self; p0 := p0 self; mask := v |}.

(** [FlowLK.__init__]; [rng] is the state of NumPy's random generator. *)
Definition __init__ (rng : nat -> Z) : FlowLK :=
  {| feature_params :=
       {| maxCorners := 100; qualityLevel := 0.3%float; minDistance := 7; blockSize := 7 |};
     lk_params :=
       {| winSize := (15, 15); maxLevel := 2;
          criteria := (Z.lor TERM_CRITERIA_EPS TERM_CRITERIA_COUNT, 10, 0.03%float) |};
     color := randint 0 255 100 3 rng;
     old_gray := None;
     p0 := None;
     mask := None |}.

(** The two states of the lifecycle: [old_gray] exists or not. *)
Inductive TrackState : Type :=
| UNINITIALIZED
| TRACKING.

Definition state_of (self : FlowLK) : TrackState :=
  match old_gray self with
  | None => UNINITIALIZED
  | Some _ => TRACKING
  end.

(** The [for i, (new, old) in enumerate(zip(good_new, good_old))] loop, from
    index [i] on: it draws into [self.mask] and on [frame]. *)
Fixpoint draw_tracks (palette : list Scalar) (i : nat) (pairs : list (Point * Point))
    (self_mask : option Mat) (frame : Mat) : result (option Mat * Mat) :=
  match pairs with
  | [] => Ok (self_mask, frame)
  | (new, old) :: rest =>
      m <- getattr self_mask ;;
      c <- getitem palette i ;;
      draw_tracks palette (S i) rest (Some (Line m new old c 2)) (Circle frame new 5 c (-1))
  end.

Section Process.

(** The corners the detector finds in an image for a quality level, a minimal
    distance and a block size, strongest first, before [maxCorners] applies. *)
Variable corners : Mat -> float -> Z -> Z -> list Point.

(** [cv2.calcOpticalFlowPyrLK(prevImg, nextImg, prevPts, None, **lk_params)]:
    the new points ([None] when every point is lost) and the status flags. *)
Variable calcOpticalFlowPyrLK :
  Mat -> Mat -> list Point -> LKParams -> option (list Point) * list Z.

(** Modelled from the spec: OpenCV's [cv2.goodFeaturesToTrack] is no code of
    this repository; its contract is a sequence of 0..maxCount points, never
    null, of length min(maxCount, the detector's natural output). *)
Definition goodFeaturesToTrack (image : Mat) (params : FeatureParams) : list Point :=
  firstn (Z.to_nat (maxCorners params))
         (corners image (qualityLevel params) (minDistance params) (blockSize params)).

(** [FlowLK.process(inframe, outframe)]: [frame] is [inframe.getCvBGR()],
    [fps] is what [self.timer.stop()] returns; the result is the object after
    the call and the image given to [outframe.sendCv]. An exception leaves no
    result. *)
Definition process (self : FlowLK) (frame : Mat) (fps : string) : result (FlowLK * Mat) :=
  '(self, frame) <-
    match old_gray self with
    | None =>
        let self := set_old_gray (Some (CvtColor frame COLOR_BGR2GRAY)) self in
        old_gray' <- getattr (old_gray self) ;;
        let self := set_p0 (Some (goodFeaturesToTrack old_gray' (feature_params self))) self in
        let self := set_mask (Some (ZerosLike frame)) self in
        Ok (self, frame)
    | Some old_gray' =>
        let frame_gray := CvtColor frame COLOR_BGR2GRAY in
        p0' <- getattr (p0 self) ;;
        let '(p1, st) := calcOpticalFlowPyrLK old_gray' frame_gray p0' (lk_params self) in
        match p1 with
        | None =>
            mask' <- getattr (mask self) ;;
            let frame := Add frame mask' in
            Ok (set_old_gray None self, frame)
        | Some p1 =>
            good_new <- bool_index p1 (eq1 st) ;;
            good_old <- bool_index p0' (eq1 st) ;;
            '(self_mask, frame) <-
              draw_tracks (color self) 0 (combine good_new good_old) (mask self) frame ;;
            let self := set_mask self_mask self in
            mask' <- getattr (mask self) ;;
            let frame := Add frame mask' in
            let self := set_old_gray (Some frame_gray) self in
            let self := set_p0 (Some good_new) self in
            Ok (self, frame)
        end
    end ;;
  Ok (self, PutText frame fps (3, shape0 frame - 7) FONT_HERSHEY_SIMPLEX 0.4%float
                    [255; 255; 255] 1 LINE_AA).

(** Successive calls of [process], one per incoming frame; the images sent
    are returned in order. *)
Fixpoint run (self : FlowLK) (inputs : list (Mat * string)) : result (FlowLK * list Mat) :=
  match inputs with
  | [] => Ok (self, [])
  | (frame, fps) :: rest =>
      '(self, out) <- process self frame fps ;;
      '(self, outs) <- run self rest ;;
      Ok (self, out :: outs)
  end.

(** The frame-rate text [process] writes before it sends a frame. *)
Definition with_fps (frame : Mat) (fps : string) : Mat :=
  PutText frame fps (3, shape0 frame - 7) FONT_HERSHEY_SIMPLEX 0.4%float [255; 255; 255] 1 LINE_AA.

(** The object after the first branch of [process]. *)
Definition acquired (self : FlowLK) (frame : Mat) : FlowLK :=
  let gray := CvtColor frame COLOR_BGR2GRAY in
  {| feature_params := feature_params self; lk_params := lk_params self;
     color := color self;
     old_gray := Some gray;
     p0 := Some (goodFeaturesToTrack gray (feature_params self));
     mask := Some (ZerosLike frame) |}.

(** The three ways through [process] that end without an exception. *)
Inductive step (self : FlowLK) (frame : Mat) (fps : string) : FlowLK -> Mat -> Prop :=
| step_acquire :
    old_gray self = None ->
    step self frame fps (acquired self frame) (with_fps frame fps)
| step_lost (old_gray' : Mat) (p0' : list Point) (st : list Z) (mask' : Mat) :
    old_gray self = Some old_gray' ->
    p0 self = Some p0' ->
    calcOpticalFlowPyrLK old_gray' (CvtColor frame COLOR_BGR2GRAY) p0' (lk_params self)
      = (None, st) ->
    mask self = Some mask' ->
    step self frame fps (set_old_gray None self) (with_fps (Add frame mask') fps)
| step_tracked (old_gray' : Mat) (p0' p1 : list Point) (st : list Z) (mask0 mask' frame' : Mat) :
    old_gray self = Some old_gray' ->
    p0 self = Some p0' ->
    calcOpticalFlowPyrLK old_gray' (CvtColor frame COLOR_BGR2GRAY) p0' (lk_params self)
      = (Some p1, st) ->
    length p1 = length st ->
    length p0' = length st ->
    mask self = Some mask0 ->
    draw_tracks (color self) 0 (combine (compress p1 (eq1 st)) (compress p0' (eq1 st)))
                (Some mask0) frame = Ok (Some mask', frame') ->
    step self frame fps
         {| feature_params := feature_params self; lk_params := lk_params self;
            color := color self;
            old_gray := Some (CvtColor frame COLOR_BGR2GRAY);
            p0 := Some (compress p1 (eq1 st));
            mask := Some mask' |}
         (with_fps (Add frame' mask') fps).


End Process.

(** [m'] is [m] after zero or more calls of [cv2.line] on it. *)
Inductive lines_on (m : Mat) : Mat -> Prop :=
| lines_on_same : lines_on m m
| lines_on_line (m' : Mat) (pt1 pt2 : Point) (c : Scalar) (thickness : Z) :
    lines_on m m' -> lines_on m (Line m' pt1 pt2 c thickness).

(** What holds of an object that [__init__ rng] created, whatever calls of
    [process] followed. *)
Definition wf (rng : nat -> Z) (self : FlowLK) : Prop :=
  feature_params self = feature_params (__init__ rng) /\
  lk_params self = lk_params (__init__ rng) /\
  color self = color (__init__ rng) /\
  match p0 self, mask self with
  | Some pts, Some m => (length pts <= 100)%nat /\ exists frame, lines_on (ZerosLike frame) m
  | None, None => old_gray self = None
  | _, _ => False
  end.

(** ** Three test scenes *)

Definition camera (seqno : nat) : Mat := Capture seqno 240 320.

Definition counting_rng (n : nat) : Z := Z.of_nat n.

(** The first [n] frames of the camera, each with a frame-rate reading. *)
Definition feed (n : nat) : list (Mat * string) :=
  map (fun seqno => (camera seqno, "30.0 fps"%string)) (seq 1 n).

(** Frame 1 shows two corners; the second is lost on frame 2 and all
    tracking on frame 3. *)
Definition corners_two (image : Mat) (q : float) (d b : Z) : list Point :=
  match image with
  | CvtColor (Capture 1 _ _) _ => [(10, 10); (20, 20)]%float
  | _ => []
  end.

Definition lk_drop_second (prev next : Mat) (pts : list Point) (params : LKParams)
    : option (list Point) * list Z :=
  match next with
  | CvtColor (Capture 2 _ _) _ => (Some [(11, 11); (0, 0)]%float, [1; 0])
  | _ => (None, [])
  end.

(** Both corners move on frame 2; the first is lost on frame 3. *)
Definition lk_drop_first (prev next : Mat) (pts : list Point) (params : LKParams)
    : option (list Point) * list Z :=
  match next with
  | CvtColor (Capture 2 _ _) _ => (Some [(11, 11); (21, 21)]%float, [1; 1])
  | CvtColor (Capture 3 _ _) _ => (Some [(0, 0); (22, 22)]%float, [0; 1])
  | _ => (None, [])
  end.



End ProgrammerInvFlowLK.

Module Ardublink.

(** ** C and Arduino values *)

Definition LEDPIN : Z := 17.
Definition INLEN : nat := 256.
Definition CATEGORY : list ascii := list_ascii_of_string "computer_keyboard".

Inductive Level : Type :=
| LOW
| HIGH.

Definition NUL : ascii := "000".

(** Conversion of a [size_t] to the Arduino [byte] (an unsigned 8-bit
    integer). *)
Definition byte (n : nat) : nat := n mod 256.

(** [Stream::readBytesUntil(terminator, buffer, length)] on the bytes
    [incoming] that arrive before the time-out: bytes are taken until [length]
    of them are stored, the terminator is read (it is dropped) or none is left.
    Returns the bytes stored and the bytes left on the port. *)
Fixpoint readBytesUntil (terminator : ascii) (incoming : list ascii) (length : nat)
    : list ascii * list ascii :=
  match length with
  | O => ([], incoming)
  | S length' =>
      match incoming with
      | [] => ([], [])
      | c :: rest =>
          if Ascii.eqb c terminator then ([], rest)
          else let (got, rest') := readBytesUntil terminator rest length' in (c :: got, rest')
      end
  end.

(** The buffer after [got] has been stored from its start. *)
Fixpoint store (buffer got : list ascii) : list ascii :=
  match got, buffer with
  | c :: got', _ :: buffer' => c :: store buffer' got'
  | _, _ => buffer
  end.

(** [buffer[i] = c] *)
Fixpoint poke (buffer : list ascii) (i : nat) (c : ascii) : list ascii :=
  match buffer, i with
  | [], _ => []
  | _ :: buffer', O => c :: buffer'
  | x :: buffer', S i' => x :: poke buffer' i' c
  end.

(** The C string that starts a buffer: its bytes up to the first NUL. *)
Fixpoint cstring (buffer : list ascii) : list ascii :=
  match buffer with
  | [] => []
  | c :: buffer' => if Ascii.eqb c NUL then [] else c :: cstring buffer'
  end.

(** [strcmp] on two C strings. *)
Fixpoint strcmp (a b : list ascii) : Z :=
  match a, b with
  | [], [] => 0
  | [], y :: _ => - Z.of_nat (nat_of_ascii y)
  | x :: _, [] => Z.of_nat (nat_of_ascii x)
  | x :: a', y :: b' =>
      if Ascii.eqb x y then strcmp a' b'
      else Z.of_nat (nat_of_ascii x) - Z.of_nat (nat_of_ascii y)
  end.

(** The delimiters [" \r\n"] given to [strtok]. *)
Definition delimiters : list ascii := [" "; "013"; "010"]%char.

Definition is_delim (delim : list ascii) (c : ascii) : bool :=
  existsb (Ascii.eqb c) delim.

Fixpoint skip_delims (delim s : list ascii) : list ascii :=
  match s with
  | [] => []
  | c :: s' => if is_delim delim c then skip_delims delim s' else s
  end.

(** The token that starts [s] and what follows the delimiter that ends it. *)
Fixpoint scan_token (delim s : list ascii) : list ascii * list ascii :=
  match s with
  | [] => ([], [])
  | c :: s' =>
      if is_delim delim c then ([], s')
      else let (tok, saved) := scan_token delim s' in (c :: tok, saved)
  end.

(** [strtok] on the C string [s] it is to look at (the one given, or the one
    it saved at the previous call): the token, if any, and the string it saves
    for the next call. *)
Definition strtok (s delim : list ascii) : option (list ascii) * list ascii :=
  match skip_delims delim s with
  | [] => (None, [])
  | s' => let (tok, saved) := scan_token delim s' in (Some tok, saved)
  end.

(** ** The sketch *)

(** [setup()] leaves the LED pin HIGH. *)
Definition setup : Level := HIGH.

(** [while (i >= 0 && tok[i] != ':') --i;] entered with [i = n - 1]: the
    value of [i] at exit. *)
Fixpoint find_colon (tok : list ascii) (n : nat) : Z :=
  match n with
  | O => -1
  | S i => if Ascii.eqb (nth i tok NUL) ":" then Z.of_nat i else find_colon tok i
  end.

(** The [switch (state)] statement for one token. *)
Definition switch (state : Z) (tok : list ascii) : Z :=
  if state =? 0 then
    if strcmp tok (list_ascii_of_string "DO") =? 0 then 1 else 1000
  else if state =? 1 then
    let i := find_colon tok (length tok) in
    let tok := if 0 <=? i then firstn (Z.to_nat i) tok else tok in
    if strcmp tok CATEGORY =? 0 then 2 else state
  else state.

(** [while (tok) { switch ...; tok = strtok(0, " \r\n"); }]; [None] when
    [fuel] iterations do not finish it. *)
Fixpoint while_tok (fuel : nat) (tok : option (list ascii)) (saved : list ascii) (state : Z)
    : option Z :=
  match tok with
  | None => Some state
  | Some t =>
      match fuel with
      | O => None
      | S fuel' =>
          let state := switch state t in
          let (tok', saved') := strtok saved delimiters in
          while_tok fuel' tok' saved' state
      end
  end.

(** [loop()]: [instr] is the buffer as the previous iteration left it,
    [incoming] the bytes that arrive on the port. The result is the level
    written to the LED pin and the bytes left on the port. *)
Definition loop (instr incoming : list ascii) : option Level * list ascii :=
  let (got, rest) := readBytesUntil "010" incoming INLEN in
  let instr := store instr got in
  let len := byte (length got) in
  let instr := poke instr len NUL in
  let (tok, saved) := strtok (cstring instr) delimiters in
  match while_tok (S (length (cstring instr))) tok saved 0 with
  | Some state => (Some (if state =? 2 then LOW else HIGH), rest)
  | None => (None, rest)
  end.

(** ** The behaviour as it is described *)

(** The tokens of a line: its maximal runs of bytes other than space,
    carriage return and line feed. *)
Fixpoint tokens (line cur : list ascii) : list (list ascii) :=
  match line with
  | [] => match cur with [] => [] | _ => [cur] end
  | c :: line' =>
      if is_delim delimiters c
      then match cur with [] => tokens line' [] | _ => cur :: tokens line' [] end
      else tokens line' (cur ++ [c])
  end.

(** A token cut before its last colon, when it has one. *)
Fixpoint before_last_colon (tok : list ascii) : option (list ascii) :=
  match tok with
  | [] => None
  | c :: tok' =>
      match before_last_colon tok' with
      | Some t => Some (c :: t)
      | None => if Ascii.eqb c ":" then Some [] else None
      end
  end.

Definition category_of (tok : list ascii) : list ascii :=
  match before_last_colon tok with
  | Some t => t
  | None => tok
  end.

(** Equality of two sequences of bytes. *)
Fixpoint eqb_chars (a b : list ascii) : bool :=
  match a, b with
  | [], [] => true
  | x :: a', y :: b' => Ascii.eqb x y && eqb_chars a' b'
  | _, _ => false
  end.

(** The LED is to be lit when the first token is DO and a later token names
    the category. *)
Definition wanted (line : list ascii) : bool :=
  match tokens line [] with
  | [] => false
  | first :: others =>
      eqb_chars first (list_ascii_of_string "DO")
      && existsb (fun tok => eqb_chars (category_of tok) CATEGORY) others
  end.

(** A line of 256 bytes that names the category. *)
Definition long_line : list ascii :=
  list_ascii_of_string "DO computer_keyboard:0.9 " ++ repeat "x"%char 231.

End Ardublink.

(** * The OpenCV tutorial script that [FlowLK] ports

    The first piece of code of doc/ProgrammerInvFlowLK.dox: the script reads
    a video frame by frame, tracks the corners of its first frame and shows
    each frame with the tracks drawn. *)

Module Tutorial.

Import ProgrammerInvFlowLK.

(** How a run of the script ends: [break] on the escape key, no frame left
    ([cap.read()] then returns no image and the script cannot go on), [p1]
    being [None] when it is indexed, or an exception raised by NumPy. *)
Inductive Ending : Type :=
| Escape
| EndOfVideo
| TypeError
| Raised (e : Exn).

Definition feature_params : FeatureParams :=
  {| maxCorners := 100; qualityLevel := 0.3%float; minDistance := 7; blockSize := 7 |}.

Definition lk_params : LKParams :=
  {| winSize := (15, 15); maxLevel := 2;
     criteria := (Z.lor TERM_CRITERIA_EPS TERM_CRITERIA_COUNT, 10, 0.03%float) |}.

Section Script.

Variable corners : Mat -> float -> Z -> Z -> list Point.
Variable calcOpticalFlowPyrLK :
  Mat -> Mat -> list Point -> LKParams -> option (list Point) * list Z.

(** The [while(1)] loop. [video] holds, for each turn, the frame that
    [cap.read()] returns and the key that [cv.waitKey(30)] returns while the
    frame is shown. The result is the images given to [cv.imshow], in order,
    and how the loop ends. *)
Fixpoint while_1 (color : list Scalar) (old_gray : Mat) (p0 : list Point) (mask : Mat)
    (video : list (Mat * Z)) : list Mat * Ending :=
  match video with
  | [] => ([], EndOfVideo)
  | (frame, key) :: video' =>
      let frame_gray := CvtColor frame COLOR_BGR2GRAY in
      let '(p1, st) := calcOpticalFlowPyrLK old_gray frame_gray p0 lk_params in
      match p1 with
      | None => ([], TypeError)
      | Some p1 =>
          match (good_new <- bool_index p1 (eq1 st) ;;
                 good_old <- bool_index p0 (eq1 st) ;;
                 '(mask', frame) <-
                   draw_tracks color 0 (combine good_new good_old) (Some mask) frame ;;
                 Ok (good_new, mask', frame)) with
          | Raise e => ([], Raised e)
          | Ok (good_new, mask', frame) =>
              let mask := match mask' with Some m => m | None => mask end in
              let img := Add frame mask in
              let k := Z.land key 255 in
              if k =? 27 then ([img], Escape)
              else
                let '(shown, ending) := while_1 color frame_gray good_new mask video' in
                (img :: shown, ending)
          end
      end
  end.

(** The script on a video whose first frame is [old_frame]. *)
Definition tutorial (rng : nat -> Z) (old_frame : Mat) (video : list (Mat * Z))
    : list Mat * Ending :=
  let color := randint 0 255 100 3 rng in
  let old_gray := CvtColor old_frame COLOR_BGR2GRAY in
  let p0 := goodFeaturesToTrack corners old_gray feature_params in
  let mask := ZerosLike old_frame in
  while_1 color old_gray p0 mask video.

End Script.

(** A video as it is played to both programs: each frame after the first
    comes with the key read while the script shows it and with the frame
    rate the module's timer gives for it. [script_input] is what the script
    reads of it, [module_input] what the module is given, and
    [module_output shown video] the images [shown] with the frame rates of
    [video] written on them. *)
Definition script_input (video : list (Mat * Z * string)) : list (Mat * Z) :=
  map (fun x => (fst (fst x), snd (fst x))) video.

Definition module_input (video : list (Mat * Z * string)) : list (Mat * string) :=
  map (fun x => (fst (fst x), snd x)) video.

Definition module_output (shown : list Mat) (video : list (Mat * Z * string)) : list Mat :=
  map (fun x => with_fps (fst x) (snd (snd x))) (combine shown video).

End Tutorial.

(** * More test scenes *)

Module MoreScenes.

Import ProgrammerInvFlowLK.

(** A tracker that keeps every point where it is. *)
Definition lk_keep_all (prev next : Mat) (pts : list Point) (params : LKParams)
    : option (list Point) * list Z :=
  (Some pts, map (fun _ => 1) pts).

(** A tracker that finds no point again, without reporting a total failure. *)
Definition lk_all_invalid (prev next : Mat) (pts : list Point) (params : LKParams)
    : option (list Point) * list Z :=
  (Some pts, map (fun _ => 0) pts).

(** A tracker that returns one flag, however many points it is given. *)
Definition lk_one_flag (prev next : Mat) (pts : list Point) (params : LKParams)
    : option (list Point) * list Z :=
  (Some pts, [1]).

(** A detector that finds 150 corners in every image. *)
Definition corners_many (image : Mat) (q : float) (d b : Z) : list Point :=
  repeat (1, 1)%float 150.

(** A detector that finds the same two corners in every image. *)
Definition corners_every (image : Mat) (q : float) (d b : Z) : list Point :=
  [(10, 10); (20, 20)]%float.

(** The object [__init__] creates once [maxCorners] is edited to 200 in it. *)
Definition wide_init (rng : nat -> Z) : FlowLK :=
  {| feature_params :=
       {| maxCorners := 200; qualityLevel := 0.3%float; minDistance := 7; blockSize := 7 |};
     lk_params := lk_params (__init__ rng);
     color := color (__init__ rng);
     old_gray := None;
     p0 := None;
     mask := None |}.

(** What [cv.waitKey] returns when no key is pressed. *)
Definition no_key : Z := -1.

(** The [n] frames that follow frame 1, each with the key read while it is
    shown (none) and a frame-rate reading. *)
Definition video (n : nat) : list (Mat * Z * string) :=
  map (fun seqno => (camera seqno, no_key, "30.0 fps"%string)) (seq 2 n).

End MoreScenes.

(** * What the tracker answered during a run *)

Module RunTrace.

Import ProgrammerInvFlowLK.

Section Trace.

Variable corners : Mat -> float -> Z -> Z -> list Point.
Variable calcOpticalFlowPyrLK :
  Mat -> Mat -> list Point -> LKParams -> option (list Point) * list Z.


End Trace.

End RunTrace.

(** * Facts about [FlowLK] *)

Module FlowLKFacts.

Import ProgrammerInvFlowLK.

(** ** NumPy indexing *)

Lemma compress_length_le {A : Type} (a : list A) (m : list bool) :
  (length (compress a m) <= length a)%nat.
Proof.
  revert m; induction a as [|x a IH]; intros [|b m]; simpl; try lia.
  specialize (IH m). destruct b; simpl; lia.
Qed.


(** While every earlier flag is set, a row keeps its index. *)
Lemma compress_prefix {A : Type} (a : list A) (m : list bool) (j : nat) :
  (forall k, (k <= j)%nat -> nth_error m k = Some true) ->
  nth_error (compress a m) j = nth_error a j.
Proof.
  revert m j; induction a as [|x a IH]; intros m j H.
  - destruct m, j; reflexivity.
  - destruct m as [|b m].
    + specialize (H 0%nat (Nat.le_0_l j)). discriminate.
    + assert (b = true) as -> by (specialize (H 0%nat (Nat.le_0_l j)); simpl in H; congruence).
      destruct j as [|j]; simpl; trivial.
      apply IH. intros k Hk. apply (H (S k)). lia.
Qed.

Lemma eq1_length (st : list Z) : length (eq1 st) = length st.
Proof. apply length_map. Qed.

Lemma eq1_nth (st : list Z) (k : nat) :
  nth_error st k = Some 1 -> nth_error (eq1 st) k = Some true.
Proof. unfold eq1. intros H. rewrite nth_error_map, H. reflexivity. Qed.

Lemma bool_index_inv {A : Type} (a : list A) (m : list bool) (r : list A) :
  bool_index a m = Ok r -> length a = length m /\ r = compress a m.
Proof.
  unfold bool_index. destruct (Nat.eqb_spec (length a) (length m)); intros H.
  - inversion H. auto.
  - discriminate.
Qed.

Lemma bool_index_same_length {A : Type} (a : list A) (m : list bool) :
  length a = length m -> bool_index a m = Ok (compress a m).
Proof. unfold bool_index. intros ->. now rewrite Nat.eqb_refl. Qed.

Lemma randint_length (low high : Z) (rows cols : nat) (rng : nat -> Z) :
  length (randint low high rows cols rng) = rows.
Proof. unfold randint. now rewrite length_map, length_seq. Qed.

Lemma palette_length (rng : nat -> Z) : length (color (__init__ rng)) = 100%nat.
Proof. apply randint_length. Qed.

Lemma skipn_nth_error {A : Type} (l : list A) (i : nat) (c : A) :
  nth_error l i = Some c -> skipn i l = c :: skipn (S i) l.
Proof.
  revert l; induction i as [|i IH]; intros [|x l] H; try discriminate.
  - inversion H. reflexivity.
  - simpl in H. apply IH in H. exact H.
Qed.

(** ** The drawing loop *)

Lemma draw_tracks_none (palette : list Scalar) (i : nat) (pairs : list (Point * Point))
    (frame : Mat) (r : option Mat * Mat) :
  draw_tracks palette i pairs None frame = Ok r -> pairs = [] /\ r = (None, frame).
Proof.
  destruct pairs as [|[new old] rest]; simpl; intros H.
  - inversion H. auto.
  - discriminate.
Qed.

Lemma draw_tracks_inv (palette : list Scalar) (pairs : list (Point * Point)) :
  forall (i : nat) (m frame : Mat) (r : option Mat * Mat),
    draw_tracks palette i pairs (Some m) frame = Ok r ->
    exists m' frame',
      r = (Some m', frame') /\
      lines_on m m' /\
      (length pairs <= length (skipn i palette))%nat /\
      segments m' = segments m ++ combine pairs (skipn i palette) /\
      markers frame' = markers frame ++ combine (map fst pairs) (skipn i palette) /\
      segments frame' = segments frame /\
      texts frame' = texts frame /\
      shape0 frame' = shape0 frame.
Proof.
  induction pairs as [|[new old] rest IH]; intros i m frame r H.
  - simpl in H. inversion H. exists m, frame.
    rewrite !app_nil_r. repeat split; simpl; try constructor; lia.
  - simpl in H. unfold getitem in H.
    destruct (nth_error palette i) as [c|] eqn:Hc; [|discriminate].
    simpl in H. apply IH in H.
    destruct H as (m' & frame' & -> & Hl & Hn & Hs & Hm & Hsf & Ht & Hsh).
    exists m', frame'. rewrite (skipn_nth_error _ _ _ Hc).
    simpl in *. rewrite <- !app_assoc in *. simpl in *.
    repeat split; trivial; try lia.
    clear -Hl. induction Hl; [do 2 constructor | now constructor].
Qed.

Lemma draw_tracks_total (palette : list Scalar) (pairs : list (Point * Point)) :
  forall (i : nat) (m frame : Mat),
    (length pairs <= length (skipn i palette))%nat ->
    exists m' frame', draw_tracks palette i pairs (Some m) frame = Ok (Some m', frame').
Proof.
  induction pairs as [|[new old] rest IH]; intros i m frame H.
  - exists m, frame. reflexivity.
  - simpl. unfold getitem.
    destruct (nth_error palette i) as [c|] eqn:Hc.
    + simpl. apply IH. rewrite (skipn_nth_error _ _ _ Hc) in H.
      cbn [length] in H. lia.
    + apply nth_error_None in Hc. rewrite skipn_all2 in H by lia. simpl in H. lia.
Qed.

Lemma lines_on_trans (m1 m2 m3 : Mat) :
  lines_on m1 m2 -> lines_on m2 m3 -> lines_on m1 m3.
Proof. intros H12 H23. induction H23; [exact H12 | now constructor]. Qed.

(** Lines add segments and nothing else. *)
Lemma lines_on_drawn (m m' : Mat) :
  lines_on m m' ->
  markers m' = markers m /\ texts m' = texts m /\ shape0 m' = shape0 m /\
  exists added, segments m' = segments m ++ added.
Proof.
  induction 1 as [|m' pt1 pt2 c t H (Hm & Ht & Hs & added & Hseg)].
  - repeat split. exists []. now rewrite app_nil_r.
  - repeat split; trivial. exists (added ++ [(pt1, pt2, c)]).
    simpl. rewrite Hseg. now rewrite app_assoc.
Qed.

(** ** [process] and its three ways *)

Section Steps.

Variable corners : Mat -> float -> Z -> Z -> list Point.
Variable calcOpticalFlowPyrLK :
  Mat -> Mat -> list Point -> LKParams -> option (list Point) * list Z.

Local Abbreviation process := (process corners calcOpticalFlowPyrLK).
Local Abbreviation run := (run corners calcOpticalFlowPyrLK).
Local Abbreviation step := (step corners calcOpticalFlowPyrLK).
Local Abbreviation acquired := (acquired corners).
Local Abbreviation goodFeaturesToTrack := (goodFeaturesToTrack corners).

Lemma process_step (self : FlowLK) (frame : Mat) (fps : string) (self' : FlowLK) (out : Mat) :
  process self frame fps = Ok (self', out) -> step self frame fps self' out.
Proof.
  unfold process. destruct (old_gray self) as [og|] eqn:Hog.
  - destruct (p0 self) as [pts|] eqn:Hp; [|discriminate]. cbn [getattr bind].
    destruct (calcOpticalFlowPyrLK og (CvtColor frame COLOR_BGR2GRAY) pts (lk_params self))
      as [[p1|] st] eqn:Hlk.
    + destruct (bool_index p1 (eq1 st)) as [good_new|] eqn:Hn; [|discriminate].
      destruct (bool_index pts (eq1 st)) as [good_old|] eqn:Ho; [|discriminate].
      apply bool_index_inv in Hn as [Hn ->]. apply bool_index_inv in Ho as [Ho ->].
      rewrite eq1_length in Hn, Ho. cbn [bind].
      destruct (mask self) as [m|] eqn:Hm.
      * destruct (draw_tracks _ _ _ _ _) as [[sm frame']|] eqn:Hd; [|discriminate].
        destruct (draw_tracks_inv _ _ _ _ _ _ Hd) as (m' & frame'' & E & _).
        inversion E; subst sm frame''. cbn. intros H. inversion H.
        exact (step_tracked _ _ _ _ _ og pts p1 st m m' frame' Hog Hp Hlk Hn Ho Hm Hd).
      * destruct (draw_tracks _ _ _ _ _) as [[sm frame']|] eqn:Hd; [|discriminate].
        apply draw_tracks_none in Hd as [_ E]. inversion E. discriminate.
    + destruct (mask self) as [m|] eqn:Hm; [|discriminate].
      cbn. intros H. inversion H.
      exact (step_lost _ _ _ _ _ og pts st m Hog Hp Hlk Hm).
  - cbn. intros H. inversion H.
    exact (step_acquire _ _ _ _ _ Hog).
Qed.

Lemma step_process (self : FlowLK) (frame : Mat) (fps : string) (self' : FlowLK) (out : Mat) :
  step self frame fps self' out -> process self frame fps = Ok (self', out).
Proof.
  intros H. unfold process.
  destruct H as [Hog | og pts st m Hog Hp Hlk Hm | og pts p1 st m m' frame' Hog Hp Hlk Hn Ho Hm Hd].
  - rewrite Hog. reflexivity.
  - rewrite Hog, Hp. cbn [getattr bind]. rewrite Hlk, Hm. reflexivity.
  - rewrite Hog, Hp. cbn [getattr bind]. rewrite Hlk.
    rewrite !bool_index_same_length by (now rewrite eq1_length).
    cbn [bind]. rewrite Hm, Hd. reflexivity.
Qed.


(** ** What every reachable object satisfies *)

Lemma init_wf (rng : nat -> Z) : wf rng (__init__ rng).
Proof. repeat split. Qed.

Lemma step_wf (rng : nat -> Z) (self : FlowLK) (frame : Mat) (fps : string)
    (self' : FlowLK) (out : Mat) :
  wf rng self -> step self frame fps self' out -> wf rng self'.
Proof.
  intros (Hf & Hl & Hc & Hpm) H.
  destruct H as [Hog | og pts st m Hog Hp Hlk Hm | og pts p1 st m m' frame' Hog Hp Hlk Hn Ho Hm Hd].
  - repeat split; trivial.
    + cbn. unfold ProgrammerInvFlowLK.goodFeaturesToTrack.
      rewrite Hf. cbn. rewrite length_firstn. apply Nat.le_min_l.
    + exists frame. constructor.
  - repeat split; trivial. cbn. rewrite Hp, Hm in *. exact Hpm.
  - rewrite Hp, Hm in Hpm. destruct Hpm as [Hlen [f Hf0]].
    apply draw_tracks_inv in Hd as (m1 & f1 & E & Hdrawn & _).
    inversion E; subst m1 f1.
    repeat split; trivial; cbn.
    + pose proof (compress_length_le p1 (eq1 st)). lia.
    + exists f. eapply lines_on_trans; eassumption.
Qed.

Lemma run_wf (rng : nat -> Z) (inputs : list (Mat * string)) :
  forall (self self' : FlowLK) (outs : list Mat),
    wf rng self -> run self inputs = Ok (self', outs) -> wf rng self'.
Proof.
  induction inputs as [|[frame fps] rest IH]; intros self self' outs Hwf H.
  - inversion H. now subst.
  - cbn [ProgrammerInvFlowLK.run] in H.
    destruct (process self frame fps) as [[s1 out]|] eqn:Hp; [|discriminate].
    cbn [bind] in H.
    destruct (run s1 rest) as [[s2 outs']|] eqn:Hr; [|discriminate].
    cbn in H. inversion H; subst.
    eapply IH; [|exact Hr]. eapply step_wf; [exact Hwf|]. apply process_step. exact Hp.
Qed.

Lemma reachable_wf (rng : nat -> Z) (inputs : list (Mat * string)) (self : FlowLK)
    (outs : list Mat) :
  run (__init__ rng) inputs = Ok (self, outs) -> wf rng self.
Proof. apply run_wf, init_wf. Qed.

(** In TRACKING the point set and the mask exist. *)
Lemma wf_tracking (rng : nat -> Z) (self : FlowLK) :
  wf rng self -> state_of self = TRACKING ->
  exists og pts m,
    old_gray self = Some og /\ p0 self = Some pts /\ mask self = Some m /\
    (length pts <= 100)%nat /\ exists frame, lines_on (ZerosLike frame) m.
Proof.
  intros (_ & _ & _ & H) Hs. unfold state_of in Hs.
  destruct (old_gray self) as [og|] eqn:Hog; [|discriminate].
  destruct (p0 self) as [pts|], (mask self) as [m|]; try contradiction; try discriminate.
  destruct H. eauto 8.
Qed.

(** ** The point set and the palette *)

(** C1, as amended: after any sequence of [process] calls that leaves the
    object in TRACKING, [color] still is the palette of 100 colours that
    [__init__] drew (no call filters it) and the point set has at most as
    many points, so every point has a palette entry at its index. *)
Theorem point_set_within_palette (rng : nat -> Z) (inputs : list (Mat * string))
    (self : FlowLK) (outs : list Mat) :
  run (__init__ rng) inputs = Ok (self, outs) ->
  state_of self = TRACKING ->
  exists pts,
    p0 self = Some pts /\
    color self = color (__init__ rng) /\
    length (color self) = 100%nat /\
    (length pts <= length (color self))%nat.
Proof.
  intros Hrun Hs. pose proof (reachable_wf _ _ _ _ Hrun) as Hwf.
  destruct (wf_tracking _ _ Hwf Hs) as (og & pts & m & _ & Hp & _ & Hlen & _).
  destruct Hwf as (_ & _ & Hc & _).
  exists pts. rewrite Hc, palette_length. auto.
Qed.

(** C9: in TRACKING, a call of [process] that stays in TRACKING leaves a
    point set no longer than the one it found, and no point set is longer
    than [maxCorners], which is 100. *)
Theorem point_count_never_grows (rng : nat -> Z) (inputs : list (Mat * string))
    (self : FlowLK) (outs : list Mat) (frame : Mat) (fps : string)
    (self' : FlowLK) (out : Mat) :
  run (__init__ rng) inputs = Ok (self, outs) ->
  state_of self = TRACKING ->
  process self frame fps = Ok (self', out) ->
  state_of self' = TRACKING ->
  exists pts pts',
    p0 self = Some pts /\
    p0 self' = Some pts' /\
    (length pts' <= length pts)%nat /\
    (length pts <= Z.to_nat (maxCorners (feature_params self)))%nat /\
    maxCorners (feature_params self) = 100.
Proof.
  intros Hrun Hs Hp Hs'. pose proof (reachable_wf _ _ _ _ Hrun) as Hwf.
  destruct (wf_tracking _ _ Hwf Hs) as (og & pts & m & Hog & Hpts & _ & Hlen & _).
  destruct Hwf as (Hf & _). rewrite Hf. cbn [maxCorners feature_params __init__].
  apply process_step in Hp.
  destruct Hp as [Hog' | og' pts' st m' Hog' Hp' Hlk Hm
                  | og' pts' p1 st m0 m' frame' Hog' Hp' Hlk Hn Ho Hm Hd].
  - congruence.
  - discriminate Hs'.
  - exists pts, (compress p1 (eq1 st)). cbn [p0].
    assert (pts' = pts) as -> by congruence.
    pose proof (compress_length_le p1 (eq1 st)).
    repeat split; trivial; lia.
Qed.

(** ** Losing every point *)

(** C3, as amended: in TRACKING, when the tracker reports a total failure,
    [process] deletes [old_gray] (the object is UNINITIALIZED again), sends
    the frame with the mask added to it, and leaves the mask as it was. The
    point set is not discarded: [p0] keeps the points it had. No later call
    reads them: whatever [p0] holds, the next call gives the same result and
    stores what the detector finds in the new frame. *)
Theorem total_failure_keeps_trails (rng : nat -> Z) (inputs : list (Mat * string))
    (self : FlowLK) (outs : list Mat) (frame : Mat) (fps : string)
    (og : Mat) (pts : list Point) (st : list Z) :
  run (__init__ rng) inputs = Ok (self, outs) ->
  old_gray self = Some og ->
  p0 self = Some pts ->
  calcOpticalFlowPyrLK og (CvtColor frame COLOR_BGR2GRAY) pts (lk_params self) = (None, st) ->
  exists m self',
    mask self = Some m /\
    process self frame fps = Ok (self', with_fps (Add frame m) fps) /\
    old_gray self' = None /\
    state_of self' = UNINITIALIZED /\
    p0 self' = Some pts /\
    mask self' = Some m /\
    segments (with_fps (Add frame m) fps) = segments frame ++ segments m /\
    forall frame' fps',
      (forall v, process (set_p0 v self') frame' fps' = process self' frame' fps') /\
      exists self'',
        process self' frame' fps' = Ok (self'', with_fps frame' fps') /\
        p0 self'' = Some (goodFeaturesToTrack (CvtColor frame' COLOR_BGR2GRAY)
                                              (feature_params self)).
Proof.
  intros Hrun Hog Hp Hlk. pose proof (reachable_wf _ _ _ _ Hrun) as Hwf.
  assert (state_of self = TRACKING) as Hs by (unfold state_of; now rewrite Hog).
  destruct (wf_tracking _ _ Hwf Hs) as (og' & pts' & m & _ & _ & Hm & _).
  exists m, (set_old_gray None self).
  split; [exact Hm|]. split.
  { apply step_process. exact (step_lost _ _ _ _ _ og pts st m Hog Hp Hlk Hm). }
  split; [reflexivity|]. split; [reflexivity|]. split; [exact Hp|].
  split; [exact Hm|]. split; [reflexivity|].
  intros frame' fps'. split; [reflexivity|].
  eexists. split; reflexivity.
Qed.

(** C4, as amended: after a total failure the next call of [process] does
    what the very first call on a new object does: it detects corners, stores
    the gray frame and a blank mask, and sends the frame. It assigns no
    colours: the palette after the call is the palette before it, the one
    [__init__] made. The call that met the failure left the mask alone, and
    no call made in TRACKING does more to the mask than draw lines on it. *)
Theorem reacquisition_as_first_call (rng : nat -> Z) (inputs : list (Mat * string))
    (self0 : FlowLK) (outs : list Mat) (frame : Mat) (fps : string)
    (self : FlowLK) (out : Mat) :
  run (__init__ rng) inputs = Ok (self0, outs) ->
  state_of self0 = TRACKING ->
  process self0 frame fps = Ok (self, out) ->
  state_of self = UNINITIALIZED ->
  mask self = mask self0 /\
  (forall frame' fps',
     process self frame' fps' = process (__init__ rng) frame' fps' /\
     exists self',
       process self frame' fps' = Ok (self', with_fps frame' fps') /\
       old_gray self' = Some (CvtColor frame' COLOR_BGR2GRAY) /\
       p0 self' = Some (goodFeaturesToTrack (CvtColor frame' COLOR_BGR2GRAY)
                                            (feature_params (__init__ rng))) /\
       mask self' = Some (ZerosLike frame') /\
       color self' = color self /\
       color self' = color (__init__ rng)) /\
  (forall t frame' fps' t' out',
     state_of t = TRACKING ->
     process t frame' fps' = Ok (t', out') ->
     exists m m', mask t = Some m /\ mask t' = Some m' /\ lines_on m m').
Proof.
  intros Hrun Hs0 Hp Hs. pose proof (reachable_wf _ _ _ _ Hrun) as Hwf0.
  apply process_step in Hp. pose proof (step_wf _ _ _ _ _ _ Hwf0 Hp) as Hwf.
  split; [|split].
  - destruct Hp as [Hog | | ]; trivial.
    + unfold state_of in Hs0. rewrite Hog in Hs0. discriminate.
    + discriminate Hs.
  - intros frame' fps'. destruct Hwf as (Hf & Hl & Hc & _).
    unfold state_of in Hs. destruct (old_gray self) eqn:Hog; [discriminate|].
    assert (process self frame' fps'
            = Ok (acquired (__init__ rng) frame', with_fps frame' fps')) as E.
    { apply step_process.
      replace (acquired (__init__ rng) frame') with (acquired self frame').
      - exact (step_acquire _ _ _ _ _ Hog).
      - unfold ProgrammerInvFlowLK.acquired. now rewrite Hf, Hl, Hc. }
    split; [exact E|]. eexists. split; [exact E|].
    split; [reflexivity|]. split; [reflexivity|]. split; [reflexivity|].
    split; [symmetry; exact Hc | reflexivity].
  - intros t frame' fps' t' out' Ht Hpt. apply process_step in Hpt.
    destruct Hpt as [Hog | og pts st m Hog Hpts Hlk Hm
                     | og pts p1 st m m' f' Hog Hpts Hlk Hn Ho Hm Hd].
    + unfold state_of in Ht. rewrite Hog in Ht. discriminate.
    + exists m, m. repeat split; trivial. constructor.
    + exists m, m'. repeat split; trivial.
      apply draw_tracks_inv in Hd as (m1 & f1 & E & Hdrawn & _).
      now inversion E; subst.
Qed.

(** ** A step that keeps some points *)

Lemma compress_length_same {A B : Type} (a : list A) (b : list B) (m : list bool) :
  length a = length m -> length b = length m ->
  length (compress a m) = length (compress b m).
Proof.
  revert a b; induction m as [|x m IH]; intros [|y a] [|z b]; simpl; try discriminate; trivial.
  intros Ha Hb. destruct x; simpl; auto.
Qed.

Lemma map_fst_combine_same {A B : Type} (a : list A) (b : list B) :
  length a = length b -> map fst (combine a b) = a.
Proof.
  revert b; induction a as [|x a IH]; intros [|y b]; simpl; try discriminate; trivial.
  intros H. f_equal. apply IH. lia.
Qed.

(** What the drawing loop does from a reachable object when the tracker's
    result has one row and one flag per point. *)
Lemma tracked_drawing (rng : nat -> Z) (self : FlowLK) (frame og : Mat)
    (pts p1 : list Point) (st : list Z) :
  wf rng self ->
  old_gray self = Some og ->
  p0 self = Some pts ->
  length p1 = length st ->
  length pts = length st ->
  exists m m' frame',
    mask self = Some m /\
    draw_tracks (color self) 0 (combine (compress p1 (eq1 st)) (compress pts (eq1 st)))
                (Some m) frame = Ok (Some m', frame') /\
    lines_on m m' /\
    (length (compress p1 (eq1 st)) <= length (color self))%nat /\
    segments m' = segments m
                  ++ combine (combine (compress p1 (eq1 st)) (compress pts (eq1 st)))
                             (color self) /\
    markers frame' = markers frame ++ combine (compress p1 (eq1 st)) (color self) /\
    markers m' = [] /\
    segments frame' = segments frame /\
    texts frame' = texts frame /\
    shape0 frame' = shape0 frame.
Proof.
  intros Hwf Hog Hp Hn Ho.
  assert (state_of self = TRACKING) as Hs by (unfold state_of; now rewrite Hog).
  destruct (wf_tracking _ _ Hwf Hs) as (og' & pts' & m & _ & Hp' & Hm & Hlen & f & Hf).
  assert (pts' = pts) as -> by congruence.
  destruct Hwf as (_ & _ & Hc & _).
  pose proof (palette_length rng) as Hpal. rewrite <- Hc in Hpal.
  pose proof (compress_length_le p1 (eq1 st)) as Hle.
  pose proof (compress_length_same p1 pts (eq1 st)) as Hsame.
  rewrite eq1_length in Hsame. specialize (Hsame Hn Ho).
  set (good_new := compress p1 (eq1 st)) in *.
  set (good_old := compress pts (eq1 st)) in *.
  destruct (draw_tracks_total (color self) (combine good_new good_old) 0 m frame)
    as (m' & frame' & Hd).
  { cbn [skipn]. rewrite length_combine. lia. }
  exists m, m', frame'. split; [exact Hm|]. split; [exact Hd|].
  apply draw_tracks_inv in Hd as (m1 & f1 & E & Hl & _ & Hseg & Hmk & Hsf & Ht & Hsh).
  inversion E; subst m1 f1. cbn [skipn] in Hseg, Hmk.
  rewrite map_fst_combine_same in Hmk by exact Hsame.
  destruct (lines_on_drawn _ _ Hl) as (Hm1 & _).
  destruct (lines_on_drawn _ _ Hf) as (Hm0 & _).
  repeat split; trivial; try lia.
  rewrite Hm1, Hm0. reflexivity.
Qed.

(** C2, as amended: in a call of [process] that keeps some points, the
    segment and the circle of the survivor at position i of the filtered
    point set are drawn with palette entry i, and the palette is left as it
    is. So a point keeps its colour from one call to the next while every
    point before it survives (its position is then unchanged); it takes the
    colour of a lower entry when one of them is dropped. *)
Theorem colour_follows_index (rng : nat -> Z) (inputs : list (Mat * string))
    (self : FlowLK) (outs : list Mat) (frame : Mat) (fps : string)
    (self' : FlowLK) (out og : Mat) (pts p1 : list Point) (st : list Z) :
  run (__init__ rng) inputs = Ok (self, outs) ->
  old_gray self = Some og ->
  p0 self = Some pts ->
  calcOpticalFlowPyrLK og (CvtColor frame COLOR_BGR2GRAY) pts (lk_params self)
    = (Some p1, st) ->
  process self frame fps = Ok (self', out) ->
  color self' = color self /\
  p0 self' = Some (compress p1 (eq1 st)) /\
  (length (compress p1 (eq1 st)) <= length (color self))%nat /\
  (exists m m',
     mask self = Some m /\ mask self' = Some m' /\
     segments m' = segments m
                   ++ combine (combine (compress p1 (eq1 st)) (compress pts (eq1 st)))
                              (color self)) /\
  markers out = markers frame ++ combine (compress p1 (eq1 st)) (color self) /\
  forall j,
    (forall k, (k <= j)%nat -> nth_error st k = Some 1) ->
    nth_error (compress p1 (eq1 st)) j = nth_error p1 j /\
    nth_error (compress pts (eq1 st)) j = nth_error pts j.
Proof.
  intros Hrun Hog Hp Hlk Hproc. pose proof (reachable_wf _ _ _ _ Hrun) as Hwf.
  apply process_step in Hproc.
  destruct Hproc as [Hog' | og' pts' st' m Hog' Hp' Hlk' Hm
                     | og' pts' p1' st' m m' frame' Hog' Hp' Hlk' Hn Ho Hm Hd];
    try congruence.
  assert (og' = og) as -> by congruence. assert (pts' = pts) as -> by congruence.
  rewrite Hlk in Hlk'. inversion Hlk'; subst p1' st'. clear Hlk'.
  destruct (tracked_drawing rng self frame og pts p1 st Hwf Hog Hp Hn Ho)
    as (m0 & m1 & f1 & Hm0 & Hd1 & _ & Hle & Hseg & Hmk & Hmm & _).
  assert (m0 = m) as -> by congruence.
  rewrite Hd in Hd1. inversion Hd1; subst m1 f1.
  cbn [color p0 mask]. repeat split; trivial.
  - exists m, m'. auto.
  - unfold with_fps. cbn [markers]. rewrite Hmk, Hmm. now rewrite app_nil_r.
  - apply compress_prefix. intros k Hk. apply eq1_nth. auto.
  - apply compress_prefix. intros k Hk. apply eq1_nth. auto.
Qed.



(** ** The first call *)

(** C7, as amended: the first call of [process] on a new object finds it
    UNINITIALIZED and leaves it in TRACKING; it stores the gray frame, a
    blank mask of the frame's size and min(maxCorners, what the detector
    finds) points, and sends the input frame with nothing on it but the
    frame-rate text, which every call writes at (3, rows - 7). *)
Theorem first_call_acquires (rng : nat -> Z) (frame : Mat) (fps : string) :
  state_of (__init__ rng) = UNINITIALIZED /\
  exists self' pts,
    process (__init__ rng) frame fps
      = Ok (self', PutText frame fps (3, shape0 frame - 7) FONT_HERSHEY_SIMPLEX
                           0.4%float [255; 255; 255] 1 LINE_AA) /\
    state_of self' = TRACKING /\
    old_gray self' = Some (CvtColor frame COLOR_BGR2GRAY) /\
    mask self' = Some (ZerosLike frame) /\
    segments (ZerosLike frame) = [] /\
    shape0 (ZerosLike frame) = shape0 frame /\
    p0 self' = Some pts /\
    length pts = Nat.min (Z.to_nat (maxCorners (feature_params (__init__ rng))))
                         (length (corners (CvtColor frame COLOR_BGR2GRAY) 0.3%float 7 7)) /\
    maxCorners (feature_params (__init__ rng)) = 100 /\
    segments (with_fps frame fps) = segments frame /\
    markers (with_fps frame fps) = markers frame /\
    texts (with_fps frame fps) = texts frame ++ [fps].
Proof.
  split; [reflexivity|].
  eexists _, _. split; [reflexivity|]. repeat split.
  cbn. apply length_firstn.
Qed.

(** ** No exception *)




(** ** Three frames *)

(** C5, as amended: when the detector finds (10,10) and (20,20) on frame 1
    the object is in TRACKING with these two points, which stand against
    entries 0 and 1 of the palette of 100 colours; when the tracker returns
    ((11,11), 1) and ((0,0), 0) on frame 2 the point set is [(11,11)], the
    palette is unchanged, and the mask has one segment, between (11,11) and
    (10,10), in palette entry 0, the colour the first point stood against;
    when the tracker reports a total failure on frame 3 the object is
    UNINITIALIZED and the frame sent still has that segment added. *)
Theorem three_frames (rng : nat -> Z) (f1 f2 f3 : Mat) (fps1 fps2 fps3 : string)
    (st3 : list Z) :
  corners (CvtColor f1 COLOR_BGR2GRAY) 0.3%float 7 7 = [(10, 10); (20, 20)]%float ->
  calcOpticalFlowPyrLK (CvtColor f1 COLOR_BGR2GRAY) (CvtColor f2 COLOR_BGR2GRAY)
    [(10, 10); (20, 20)]%float (lk_params (__init__ rng))
    = (Some [(11, 11); (0, 0)]%float, [1; 0]) ->
  calcOpticalFlowPyrLK (CvtColor f2 COLOR_BGR2GRAY) (CvtColor f3 COLOR_BGR2GRAY)
    [(11, 11)]%float (lk_params (__init__ rng))
    = (None, st3) ->
  exists s1 o1 s2 o2 s3 o3 c0 c1 trail,
    process (__init__ rng) f1 fps1 = Ok (s1, o1) /\
    state_of s1 = TRACKING /\
    p0 s1 = Some [(10, 10); (20, 20)]%float /\
    length (color s1) = 100%nat /\
    nth_error (color s1) 0 = Some c0 /\
    nth_error (color s1) 1 = Some c1 /\
    process s1 f2 fps2 = Ok (s2, o2) /\
    state_of s2 = TRACKING /\
    p0 s2 = Some [(11, 11)]%float /\
    color s2 = color s1 /\
    trail = Line (ZerosLike f1) (11, 11)%float (10, 10)%float c0 2 /\
    mask s2 = Some trail /\
    segments trail = [((11, 11), (10, 10), c0)]%float /\
    markers o2 = markers f2 ++ [((11, 11)%float, c0)] /\
    process s2 f3 fps3 = Ok (s3, o3) /\
    state_of s3 = UNINITIALIZED /\
    o3 = with_fps (Add f3 trail) fps3 /\
    segments o3 = segments f3 ++ [((11, 11), (10, 10), c0)]%float.
Proof.
  intros Hdet Hlk2 Hlk3.
  set (c0 := [0 + rng 0%nat mod (255 - 0); 0 + rng 1%nat mod (255 - 0);
              0 + rng 2%nat mod (255 - 0)]).
  set (c1 := [0 + rng 3%nat mod (255 - 0); 0 + rng 4%nat mod (255 - 0);
              0 + rng 5%nat mod (255 - 0)]).
  set (trail := Line (ZerosLike f1) (11, 11)%float (10, 10)%float c0 2).
  set (s1 := acquired (__init__ rng) f1).
  assert (p0 s1 = Some [(10, 10); (20, 20)]%float) as Hp1.
  { subst s1. cbn. rewrite Hdet. reflexivity. }
  set (s2 := {| feature_params := feature_params s1; lk_params := lk_params s1;
                color := color s1;
                old_gray := Some (CvtColor f2 COLOR_BGR2GRAY);
                p0 := Some (compress [(11, 11); (0, 0)]%float (eq1 [1; 0]));
                mask := Some trail |}).
  exists s1, (with_fps f1 fps1), s2,
         (with_fps (Add (Circle f2 (11, 11)%float 5 c0 (-1)) trail) fps2),
         (set_old_gray None s2), (with_fps (Add f3 trail) fps3), c0, c1, trail.
  split; [reflexivity|]. split; [reflexivity|]. split; [exact Hp1|].
  split; [apply palette_length|]. split; [reflexivity|]. split; [reflexivity|].
  split.
  { apply step_process.
    refine (step_tracked _ _ s1 f2 fps2 (CvtColor f1 COLOR_BGR2GRAY) _ _ _
              (ZerosLike f1) trail (Circle f2 (11, 11)%float 5 c0 (-1))
              _ Hp1 Hlk2 _ _ _ _); reflexivity. }
  split; [reflexivity|]. split; [reflexivity|]. split; [reflexivity|].
  split; [reflexivity|]. split; [reflexivity|]. split; [reflexivity|].
  split; [cbn; now rewrite app_nil_r|].
  split.
  { apply step_process.
    refine (step_lost _ _ s2 f3 fps3 (CvtColor f2 COLOR_BGR2GRAY) [(11, 11)]%float st3
              trail _ _ Hlk3 _); reflexivity. }
  repeat split.
Qed.

End Steps.

(** ** The test scenes *)

Ltac computed := vm_compute; reflexivity.


(** The bound of C1 on the first scene, after two frames. *)
Lemma point_set_within_palette_witness :
  exists self outs,
    run corners_two lk_drop_second (__init__ counting_rng) (feed 2) = Ok (self, outs) /\
    state_of self = TRACKING /\
    exists pts,
      p0 self = Some pts /\
      color self = color (__init__ counting_rng) /\
      length (color self) = 100%nat /\
      (length pts <= length (color self))%nat.
Proof.
  eexists _, _. split; [computed|]. split; [computed|].
  apply (point_set_within_palette corners_two lk_drop_second counting_rng (feed 2) _ _
           ltac:(computed) ltac:(computed)).
Defined.

(** C1 fails as it is stated: after the two corners of frame 1 have been
    tracked to frame 2, where one is dropped, the object is in TRACKING with
    one point and the 100 colours it always had. *)
Lemma palette_is_not_filtered :
  exists self outs pts,
    run corners_two lk_drop_second (__init__ counting_rng) (feed 2) = Ok (self, outs) /\
    state_of self = TRACKING /\
    p0 self = Some pts /\
    length pts = 1%nat /\
    length (color self) = 100%nat /\
    length pts <> length (color self).
Proof.
  eexists _, _, _. split; [computed|]. split; [computed|]. split; [computed|].
  split; [computed|]. split; [computed|]. discriminate.
Qed.

(** C2 fails as it is stated: the corner found at (20,20) is tracked to
    (21,21) on frame 2 and to (22,22) on frame 3, where the corner before it
    is dropped; its first segment is in palette entry 1 and its second in
    palette entry 0. *)
Lemma colour_changes_when_earlier_point_drops :
  exists self outs m,
    run corners_two lk_drop_first (__init__ counting_rng) (feed 3) = Ok (self, outs) /\
    mask self = Some m /\
    nth_error (color self) 0 = Some [0; 1; 2] /\
    nth_error (color self) 1 = Some [3; 4; 5] /\
    segments m = [((11, 11)%float, (10, 10)%float, [0; 1; 2]);
                  ((21, 21)%float, (20, 20)%float, [3; 4; 5]);
                  ((22, 22)%float, (21, 21)%float, [0; 1; 2])] /\
    [3; 4; 5] <> [0; 1; 2].
Proof.
  eexists _, _, _. split; [computed|]. split; [computed|]. split; [computed|].
  split; [computed|]. split; [computed|]. discriminate.
Qed.

(** The colours of C2 on the second scene, at the third frame. *)
Lemma colour_follows_index_witness :
  exists self outs self' out,
    run corners_two lk_drop_first (__init__ counting_rng) (feed 2) = Ok (self, outs) /\
    process corners_two lk_drop_first self (camera 3) "30.0 fps" = Ok (self', out) /\
    color self' = color self /\
    p0 self' = Some [(22, 22)]%float /\
    markers out = [((22, 22)%float, [0; 1; 2])].
Proof.
  eexists _, _, _, _. split; [computed|]. split; [computed|].
  destruct (colour_follows_index corners_two lk_drop_first counting_rng (feed 2)
              _ _ (camera 3) "30.0 fps" _ _ _ _ _ _
              ltac:(computed) ltac:(computed) ltac:(computed) ltac:(computed)
              ltac:(computed))
    as (Hc & Hp & _ & _ & Hm & _).
  split; [exact Hc|]. split; [exact Hp|]. exact Hm.
Defined.

(** C3 on the first scene: the tracker reports a total failure at the third
    frame. *)
Lemma total_failure_keeps_trails_witness :
  exists self outs m self',
    run corners_two lk_drop_second (__init__ counting_rng) (feed 2) = Ok (self, outs) /\
    mask self = Some m /\
    process corners_two lk_drop_second self (camera 3) "30.0 fps"
      = Ok (self', with_fps (Add (camera 3) m) "30.0 fps") /\
    state_of self' = UNINITIALIZED /\
    p0 self' = Some [(11, 11)]%float /\
    mask self' = Some m.
Proof.
  eexists _, _.
  destruct (total_failure_keeps_trails corners_two lk_drop_second counting_rng (feed 2)
              _ _ (camera 3) "30.0 fps" _ _ _
              ltac:(computed) ltac:(computed) ltac:(computed) ltac:(computed))
    as (m & self' & Hm & Hp & _ & Hs & Hp0 & Hm' & _).
  exists m, self'. split; [computed|]. auto 6.
Defined.

(** C3 fails as it is stated: after the total failure on frame 3 the
    object is UNINITIALIZED and [p0] still holds the point tracked to
    frame 2. *)
Lemma point_set_survives_total_failure :
  exists self outs,
    run corners_two lk_drop_second (__init__ counting_rng) (feed 3) = Ok (self, outs) /\
    state_of self = UNINITIALIZED /\
    old_gray self = None /\
    p0 self = Some [(11, 11)]%float /\
    p0 self <> None.
Proof.
  eexists _, _. split; [computed|]. split; [computed|]. split; [computed|].
  split; [computed|]. discriminate.
Qed.

(** C4 on the first scene: the fourth frame is handled as a first frame. *)
Lemma reacquisition_as_first_call_witness :
  exists self0 outs self out,
    run corners_two lk_drop_second (__init__ counting_rng) (feed 2) = Ok (self0, outs) /\
    process corners_two lk_drop_second self0 (camera 3) "30.0 fps" = Ok (self, out) /\
    state_of self = UNINITIALIZED /\
    mask self = mask self0 /\
    process corners_two lk_drop_second self (camera 4) "30.0 fps"
      = process corners_two lk_drop_second (__init__ counting_rng) (camera 4) "30.0 fps".
Proof.
  eexists _, _, _, _. split; [computed|]. split; [computed|]. split; [computed|].
  destruct (reacquisition_as_first_call corners_two lk_drop_second counting_rng (feed 2)
              _ _ (camera 3) "30.0 fps" _ _
              ltac:(computed) ltac:(computed) ltac:(computed) ltac:(computed))
    as (Hm & Hnext & _).
  split; [exact Hm|]. apply Hnext.
Defined.

(** C4 fails as it is stated: the call that detects again after a total
    failure finds two corners and assigns them no colours; the palette is the
    one it was before the call, with its 100 entries. *)
Lemma reacquisition_assigns_no_colours :
  exists self0 outs self1 out,
    run MoreScenes.corners_every lk_drop_second (__init__ counting_rng) (feed 3)
      = Ok (self0, outs) /\
    state_of self0 = UNINITIALIZED /\
    process MoreScenes.corners_every lk_drop_second self0 (camera 4) "30.0 fps"
      = Ok (self1, out) /\
    state_of self1 = TRACKING /\
    p0 self1 = Some [(10, 10); (20, 20)]%float /\
    color self1 = color self0 /\
    color self1 = color (__init__ counting_rng) /\
    length (color self1) = 100%nat /\
    length (color self1) <> 2%nat.
Proof.
  eexists _, _, _, _. split; [computed|]. split; [computed|]. split; [computed|].
  split; [computed|]. split; [computed|]. split; [computed|]. split; [computed|].
  split; [computed|]. discriminate.
Qed.

(** C5 fails as it is stated: after frame 1 the object has two points and
    a palette of 100 colours, not 2. *)
Lemma two_points_hundred_colours :
  exists self out,
    process corners_two lk_drop_second (__init__ counting_rng) (camera 1) "30.0 fps"
      = Ok (self, out) /\
    state_of self = TRACKING /\
    p0 self = Some [(10, 10); (20, 20)]%float /\
    length (color self) = 100%nat /\
    length (color self) <> 2%nat.
Proof.
  eexists _, _. split; [computed|]. split; [computed|]. split; [computed|].
  split; [computed|]. discriminate.
Qed.

(** C5 on the first scene, with the palette drawn by [counting_rng]. *)
Lemma three_frames_witness :
  exists s1 o1 s2 o2 s3 o3,
    process corners_two lk_drop_second (__init__ counting_rng) (camera 1) "30.0 fps"
      = Ok (s1, o1) /\
    p0 s1 = Some [(10, 10); (20, 20)]%float /\
    process corners_two lk_drop_second s1 (camera 2) "30.0 fps" = Ok (s2, o2) /\
    p0 s2 = Some [(11, 11)]%float /\
    process corners_two lk_drop_second s2 (camera 3) "30.0 fps" = Ok (s3, o3) /\
    state_of s3 = UNINITIALIZED /\
    segments o3 = [((11, 11)%float, (10, 10)%float, [0; 1; 2])].
Proof.
  destruct (three_frames corners_two lk_drop_second counting_rng
              (camera 1) (camera 2) (camera 3) "30.0 fps" "30.0 fps" "30.0 fps" []
              ltac:(computed) ltac:(computed) ltac:(computed))
    as (s1 & o1 & s2 & o2 & s3 & o3 & c0 & c1 & trail & H1 & _ & Hp1 & _ & Hc0 & _
        & H2 & _ & Hp2 & _ & _ & _ & _ & _ & H3 & Hs3 & _ & Hseg).
  exists s1, o1, s2, o2, s3, o3.
  inversion H1; subst s1. inversion Hc0; subst c0.
  repeat split; trivial.
Defined.


(** C7 fails as it is stated: the frame sent by the first call is the input
    frame with the frame-rate text written on it. *)
Lemma first_frame_carries_frame_rate :
  exists self out,
    process corners_two lk_drop_second (__init__ counting_rng) (camera 1) "30.0 fps"
      = Ok (self, out) /\
    out = with_fps (camera 1) "30.0 fps" /\
    texts (camera 1) = [] /\
    texts out = ["30.0 fps"%string] /\
    out <> camera 1.
Proof.
  eexists _, _. split; [computed|]. split; [computed|]. split; [computed|].
  split; [computed|]. discriminate.
Qed.



(** C9 on the first scene, at the second frame. *)
Lemma point_count_never_grows_witness :
  exists self outs self' out pts pts',
    run corners_two lk_drop_second (__init__ counting_rng) (feed 1) = Ok (self, outs) /\
    process corners_two lk_drop_second self (camera 2) "30.0 fps" = Ok (self', out) /\
    p0 self = Some pts /\
    p0 self' = Some pts' /\
    (length pts' <= length pts)%nat /\
    (length pts <= 100)%nat.
Proof.
  eexists _, _, _, _.
  destruct (point_count_never_grows corners_two lk_drop_second counting_rng (feed 1)
              _ _ (camera 2) "30.0 fps" _ _
              ltac:(computed) ltac:(computed) ltac:(computed) ltac:(computed))
    as (pts & pts' & Hp & Hp' & Hle & Hmax & _).
  exists pts, pts'. split; [computed|]. split; [computed|]. auto.
Defined.

End FlowLKFacts.

(** * Facts about the Arduino sketch *)

Module ArdublinkFacts.

Import Ardublink.

(** ** Reading a line into the buffer *)

Lemma readBytesUntil_line (line more : list ascii) :
  forall n,
    (length line < n)%nat ->
    Forall (fun c => c <> "010"%char) line ->
    readBytesUntil "010" (line ++ "010"%char :: more) n = (line, more).
Proof.
  induction line as [|c line IH]; intros [|n] Hn Hl; simpl in *; try lia.
  - reflexivity.
  - inversion Hl as [|? ? Hc Hl']; subst.
    destruct (Ascii.eqb_spec c "010"); [contradiction|].
    rewrite IH by (trivial; lia). reflexivity.
Qed.

Lemma store_app (got : list ascii) :
  forall buffer,
    (length got <= length buffer)%nat ->
    store buffer got = got ++ skipn (length got) buffer.
Proof.
  induction got as [|c got IH]; intros [|x buffer] H; simpl in *; try lia; trivial.
  now rewrite IH by lia.
Qed.

Lemma poke_app (a : list ascii) (x : ascii) (b : list ascii) (c : ascii) :
  poke (a ++ x :: b) (length a) c = a ++ c :: b.
Proof. induction a as [|y a IH]; simpl; [reflexivity | now rewrite IH]. Qed.

Lemma cstring_app (a b : list ascii) :
  Forall (fun c => c <> NUL) a -> cstring (a ++ NUL :: b) = a.
Proof.
  induction 1 as [|c a Hc Ha IH]; simpl.
  - reflexivity.
  - destruct (Ascii.eqb_spec c NUL); [contradiction|]. now rewrite IH.
Qed.

(** The C string [loop] parses when a whole line of fewer than 256 bytes
    has arrived. *)
Lemma buffer_holds_line (instr line : list ascii) :
  length instr = S INLEN ->
  (length line < 256)%nat ->
  Forall (fun c => c <> NUL) line ->
  cstring (poke (store instr line) (byte (length line)) NUL) = line.
Proof.
  intros Hi Hl Hn. unfold INLEN in Hi.
  rewrite store_app by lia. unfold byte. rewrite Nat.mod_small by exact Hl.
  destruct (skipn (length line) instr) as [|x rest] eqn:Hs.
  - apply (f_equal (@length ascii)) in Hs. rewrite length_skipn in Hs. simpl in Hs. lia.
  - rewrite poke_app. now apply cstring_app.
Qed.

(** ** [strtok] and the tokens of a line *)

Lemma tokens_cur (s : list ascii) :
  forall cur,
    cur <> [] ->
    tokens s cur
    = (cur ++ fst (scan_token delimiters s)) :: tokens (snd (scan_token delimiters s)) [].
Proof.
  induction s as [|c s IH]; intros cur Hcur; cbn [tokens scan_token].
  - cbn [fst snd tokens]. rewrite app_nil_r. destruct cur; [contradiction | reflexivity].
  - destruct (is_delim delimiters c) eqn:Hd.
    + cbn [fst snd]. rewrite app_nil_r. destruct cur; [contradiction | reflexivity].
    + rewrite IH by (destruct cur; discriminate).
      destruct (scan_token delimiters s) as [tok saved]. cbn [fst snd].
      now rewrite <- app_assoc.
Qed.

Lemma scan_token_shorter (s : list ascii) :
  (length (snd (scan_token delimiters s)) <= length s)%nat.
Proof.
  induction s as [|x s IH]; cbn [scan_token]; [cbn; lia|].
  destruct (is_delim delimiters x); [cbn; lia|].
  destruct (scan_token delimiters s). cbn [snd length] in *. lia.
Qed.

Lemma strtok_tokens (s : list ascii) :
  match strtok s delimiters with
  | (None, _) => tokens s [] = []
  | (Some tok, saved) => tokens s [] = tok :: tokens saved [] /\ (length saved < length s)%nat
  end.
Proof.
  unfold strtok. induction s as [|c s IH]; cbn [skip_delims tokens].
  - reflexivity.
  - destruct (is_delim delimiters c) eqn:Hd.
    + destruct (skip_delims delimiters s) as [|c' s'] eqn:Hs.
      * exact IH.
      * destruct (scan_token delimiters (c' :: s')) as [tok saved].
        destruct IH as [IH Hlen]. split; [exact IH | cbn [length]; lia].
    + cbn [scan_token]. rewrite Hd. rewrite tokens_cur by discriminate.
      pose proof (scan_token_shorter s) as Hlen.
      destruct (scan_token delimiters s) as [tok saved]. cbn [fst snd length app] in *.
      split; [reflexivity | lia].
Qed.

(** With as many iterations as the string has bytes, and one more, the
    [while] loop ends, having run [switch] on each token in turn. *)
Lemma while_tok_tokens (fuel : nat) :
  forall (s : list ascii) (state : Z),
    (length s < fuel)%nat ->
    while_tok fuel (fst (strtok s delimiters)) (snd (strtok s delimiters)) state
    = Some (fold_left switch (tokens s []) state).
Proof.
  induction fuel as [|fuel IH]; intros s state Hlen; [lia|].
  pose proof (strtok_tokens s) as H.
  destruct (strtok s delimiters) as [[tok|] saved]; cbn [fst snd while_tok].
  - destruct H as [-> Hs]. cbn [fold_left].
    specialize (IH saved (switch state tok)).
    destruct (strtok saved delimiters) as [tok' saved']. apply IH. lia.
  - rewrite H. reflexivity.
Qed.

Lemma tokens_Forall (P : ascii -> Prop) (s : list ascii) :
  forall cur,
    Forall P s -> Forall P cur -> Forall (Forall P) (tokens s cur).
Proof.
  induction s as [|c s IH]; intros cur Hs Hcur; cbn [tokens].
  - destruct cur; [constructor | constructor; [exact Hcur | constructor]].
  - inversion Hs; subst. destruct (is_delim delimiters c).
    + destruct cur; [now apply IH | constructor; [trivial | now apply IH]].
    + apply IH; trivial. apply Forall_app. split; [exact Hcur | now repeat constructor].
Qed.

(** ** The state machine *)

Lemma eqb_chars_eq (a b : list ascii) : eqb_chars a b = true <-> a = b.
Proof.
  revert b; induction a as [|x a IH]; intros [|y b]; simpl; split; try discriminate; trivial.
  - intros H. apply andb_true_iff in H as [Hxy Hab].
    apply Ascii.eqb_eq in Hxy. apply IH in Hab. congruence.
  - intros H. inversion H; subst. rewrite Ascii.eqb_refl. simpl. now apply IH.
Qed.

Lemma strcmp_eq (a : list ascii) :
  forall b,
    Forall (fun c => c <> NUL) a ->
    Forall (fun c => c <> NUL) b ->
    (strcmp a b =? 0) = eqb_chars a b.
Proof.
  assert (forall c, c <> NUL -> Z.of_nat (nat_of_ascii c) <> 0) as Hnz.
  { intros c Hc E. apply Hc. rewrite <- (ascii_nat_embedding c).
    change 0 with (Z.of_nat 0) in E. apply Nat2Z.inj in E. rewrite E. reflexivity. }
  induction a as [|x a IH]; intros [|y b] Ha Hb; cbn [strcmp eqb_chars].
  - reflexivity.
  - inversion Hb as [|? ? Hy]; subst. apply Z.eqb_neq. apply Hnz in Hy.
    set (code := Z.of_nat (nat_of_ascii y)) in *. clearbody code. lia.
  - inversion Ha; subst. apply Z.eqb_neq. auto.
  - inversion Ha; inversion Hb; subst. destruct (Ascii.eqb_spec x y) as [->|Hxy].
    + now apply IH.
    + apply Z.eqb_neq. intros E. apply Hxy.
      rewrite <- (ascii_nat_embedding x), <- (ascii_nat_embedding y). f_equal.
      apply Nat2Z.inj. apply Z.sub_move_0_r. exact E.
Qed.

Lemma find_colon_app (t : list ascii) (c : ascii) (n : nat) :
  (n <= length t)%nat -> find_colon (t ++ [c]) n = find_colon t n.
Proof.
  induction n as [|n IH]; intros H; simpl; [reflexivity|].
  rewrite app_nth1 by lia. rewrite IH by lia. reflexivity.
Qed.

Lemma before_last_colon_app (t : list ascii) (c : ascii) :
  before_last_colon (t ++ [c])
  = if Ascii.eqb c ":" then Some t else before_last_colon t.
Proof.
  induction t as [|x t IH]; simpl.
  - destruct (Ascii.eqb c ":"); reflexivity.
  - rewrite IH. destruct (Ascii.eqb c ":"); [reflexivity|].
    destruct (before_last_colon t); reflexivity.
Qed.

(** The [while] loop of state 1 stops on the last colon. *)
Lemma find_colon_last (tok : list ascii) :
  match before_last_colon tok with
  | Some t => find_colon tok (length tok) = Z.of_nat (length t) /\ firstn (length t) tok = t
  | None => find_colon tok (length tok) = -1
  end.
Proof.
  induction tok as [|c t IH] using rev_ind; [reflexivity|].
  rewrite before_last_colon_app, length_app. simpl length.
  rewrite Nat.add_1_r. cbn [find_colon].
  rewrite nth_middle.
  destruct (Ascii.eqb c ":").
  - split; [reflexivity|]. rewrite firstn_app, Nat.sub_diag, firstn_all. simpl.
    apply app_nil_r.
  - rewrite find_colon_app by lia.
    destruct (before_last_colon t) as [u|]; [|exact IH].
    destruct IH as [IH Hu]. split; [exact IH|].
    assert (length u <= length t)%nat as Hle.
    { rewrite <- Hu. rewrite length_firstn. lia. }
    rewrite firstn_app. replace (length u - length t)%nat with 0%nat by lia.
    simpl. rewrite app_nil_r. exact Hu.
Qed.

Lemma Forall_prefix {A : Type} (P : A -> Prop) (n : nat) :
  forall l, Forall P l -> Forall P (firstn n l).
Proof.
  induction n as [|n IH]; intros [|x l] H; simpl; try constructor.
  - now inversion H.
  - apply IH. now inversion H.
Qed.

Lemma switch_0 (tok : list ascii) :
  Forall (fun c => c <> NUL) tok ->
  switch 0 tok = if eqb_chars tok (list_ascii_of_string "DO") then 1 else 1000.
Proof.
  intros H. unfold switch. simpl. rewrite strcmp_eq; trivial.
  repeat constructor; discriminate.
Qed.

Lemma switch_1 (tok : list ascii) :
  Forall (fun c => c <> NUL) tok ->
  switch 1 tok = if eqb_chars (category_of tok) CATEGORY then 2 else 1.
Proof.
  intros H. unfold switch, category_of. simpl.
  pose proof (find_colon_last tok) as Hf.
  destruct (before_last_colon tok) as [t|].
  - destruct Hf as [-> Ht]. rewrite Nat2Z.id.
    replace (0 <=? Z.of_nat (length t)) with true by (symmetry; apply Z.leb_le; lia).
    rewrite Ht. rewrite strcmp_eq; trivial.
    + rewrite <- Ht. now apply Forall_prefix.
    + repeat constructor; discriminate.
  - rewrite Hf. simpl. rewrite strcmp_eq; trivial.
    repeat constructor; discriminate.
Qed.

Lemma switch_other (state : Z) (toks : list (list ascii)) :
  state <> 0 -> state <> 1 -> fold_left switch toks state = state.
Proof.
  intros H0 H1. induction toks as [|tok toks IH]; simpl; [reflexivity|].
  unfold switch at 2.
  destruct (Z.eqb_spec state 0); [contradiction|].
  destruct (Z.eqb_spec state 1); [contradiction|]. exact IH.
Qed.

(** From state 1 the machine ends in state 2 when some token names the
    category, whatever the tokens after it, and stays in state 1 otherwise. *)
Lemma fold_switch_1 (toks : list (list ascii)) :
  Forall (Forall (fun c => c <> NUL)) toks ->
  fold_left switch toks 1
  = if existsb (fun tok => eqb_chars (category_of tok) CATEGORY) toks then 2 else 1.
Proof.
  induction 1 as [|tok toks Htok Htoks IH]; simpl; [reflexivity|].
  rewrite switch_1 by exact Htok.
  destruct (eqb_chars (category_of tok) CATEGORY); simpl.
  - apply switch_other; discriminate.
  - exact IH.
Qed.

Lemma fold_switch_0 (toks : list (list ascii)) :
  Forall (Forall (fun c => c <> NUL)) toks ->
  (fold_left switch toks 0 =? 2)
  = match toks with
    | [] => false
    | first :: others =>
        eqb_chars first (list_ascii_of_string "DO")
        && existsb (fun tok => eqb_chars (category_of tok) CATEGORY) others
    end.
Proof.
  intros H. destruct H as [|first others Hfirst Hothers]; [reflexivity|].
  cbn [fold_left]. rewrite switch_0 by exact Hfirst.
  destruct (eqb_chars first (list_ascii_of_string "DO")); cbn [andb].
  - rewrite fold_switch_1 by exact Hothers.
    destruct (existsb _ others); reflexivity.
  - rewrite switch_other by discriminate. reflexivity.
Qed.

(** Once in state 2 the machine stays there. *)
Lemma state_2_is_kept (toks : list (list ascii)) : fold_left switch toks 2 = 2.
Proof. apply switch_other; discriminate. Qed.

(** ** One iteration of [loop] *)

(** On a line of fewer than 256 bytes, none of them NUL, [loop] drives the
    LED pin LOW when the first token of the line is DO and a later token,
    cut before its last colon, is the category, and HIGH otherwise. *)
Theorem loop_lights_wanted (instr line more : list ascii) :
  length instr = S INLEN ->
  (length line < INLEN)%nat ->
  Forall (fun c => c <> NUL) line ->
  Forall (fun c => c <> "010"%char) line ->
  loop instr (line ++ "010"%char :: more)
  = (Some (if wanted line then LOW else HIGH), more).
Proof.
  intros Hi Hl Hnul Hlf. unfold loop.
  rewrite readBytesUntil_line by (trivial; unfold INLEN in *; lia).
  rewrite buffer_holds_line by trivial.
  pose proof (while_tok_tokens (S (length line)) line 0 (Nat.lt_succ_diag_r _)) as Hw.
  destruct (strtok line delimiters) as [tok saved]. cbn [fst snd] in Hw. rewrite Hw.
  rewrite fold_switch_0 by (apply tokens_Forall; [exact Hnul | constructor]).
  reflexivity.
Qed.

(** [loop] always writes a level: the [while] loop never needs more
    iterations than it is given. *)
Lemma loop_writes_a_level (instr incoming : list ascii) :
  exists level, fst (loop instr incoming) = Some level.
Proof.
  unfold loop. destruct (readBytesUntil "010" incoming INLEN) as [got rest].
  set (s := cstring (poke (store instr got) (byte (length got)) NUL)).
  pose proof (while_tok_tokens (S (length s)) s 0 (Nat.lt_succ_diag_r _)) as Hw.
  destruct (strtok s delimiters) as [tok saved]. cbn [fst snd] in Hw. rewrite Hw.
  eexists. reflexivity.
Qed.

(** C10: a line of 256 bytes whose first token is DO and whose second
    token names the category fills the buffer; the count 256 does not fit the
    [byte] it is stored in and becomes 0, the string is cut at its first
    byte, and [loop] drives the LED pin HIGH although the line asks for LOW. *)
Theorem long_line_leaves_led_off :
  length long_line = INLEN /\
  wanted long_line = true /\
  byte (length long_line) = 0%nat /\
  loop (repeat NUL (S INLEN)) (long_line ++ ["010"%char]) = (Some HIGH, ["010"%char]).
Proof. repeat split; vm_compute; reflexivity. Qed.

(** A line of three categories, the second of which is the one wanted. *)
Lemma loop_lights_wanted_example :
  loop (repeat NUL (S INLEN))
       (list_ascii_of_string "DO mouse:0.2 computer_keyboard:0.7 desk:0.1" ++ ["010"%char])
  = (Some LOW, []).
Proof.
  apply (loop_lights_wanted (repeat NUL (S INLEN))
           (list_ascii_of_string "DO mouse:0.2 computer_keyboard:0.7 desk:0.1") []).
  - reflexivity.
  - vm_compute. lia.
  - repeat constructor; discriminate.
  - repeat constructor; discriminate.
Defined.

End ArdublinkFacts.

(** * More facts about [FlowLK] *)

Module FlowLKMore.

Import ProgrammerInvFlowLK FlowLKFacts MoreScenes.

Ltac computed := vm_compute; reflexivity.

Lemma draw_tracks_short (palette : list Scalar) (pairs : list (Point * Point)) :
  forall (i : nat) (m frame : Mat),
    (length (skipn i palette) < length pairs)%nat ->
    draw_tracks palette i pairs (Some m) frame = Raise IndexError.
Proof.
  induction pairs as [|[new old] rest IH]; intros i m frame H; [simpl in H; lia|].
  cbn [draw_tracks getattr bind]. unfold getitem.
  destruct (nth_error palette i) as [c|] eqn:Hc; [|reflexivity].
  cbn [bind]. apply IH. rewrite (skipn_nth_error _ _ _ Hc) in H.
  cbn [length] in H. lia.
Qed.

Lemma compress_none {A : Type} (a : list A) (st : list Z) :
  Forall (fun s => s <> 1) st -> compress a (eq1 st) = [].
Proof.
  intros H. revert a. induction H as [|s st Hs Hst IH]; intros [|x a]; simpl; trivial.
  destruct (Z.eqb_spec s 1); [contradiction | apply IH].
Qed.

Lemma randint_range (low high : Z) (rows cols : nat) (rng : nat -> Z) (c : Scalar) :
  low < high ->
  In c (randint low high rows cols rng) ->
  length c = cols /\ Forall (fun x => low <= x < high) c.
Proof.
  intros Hlh Hin. unfold randint in Hin. apply in_map_iff in Hin as (i & <- & _).
  split; [now rewrite length_map, length_seq|].
  apply Forall_forall. intros x Hx. apply in_map_iff in Hx as (j & <- & _).
  pose proof (Z.mod_pos_bound (rng (i * cols + j)%nat) (high - low)). lia.
Qed.

Section MoreSteps.

Variable corners : Mat -> float -> Z -> Z -> list Point.
Variable calcOpticalFlowPyrLK :
  Mat -> Mat -> list Point -> LKParams -> option (list Point) * list Z.

Local Abbreviation process := (process corners calcOpticalFlowPyrLK).
Local Abbreviation run := (run corners calcOpticalFlowPyrLK).
Local Abbreviation step := (step corners calcOpticalFlowPyrLK).

(** What a property needs to hold after every sequence of calls. *)
Lemma run_preserves (P : FlowLK -> Prop) :
  (forall self frame fps self' out, P self -> step self frame fps self' out -> P self') ->
  forall inputs self self' outs,
    P self -> run self inputs = Ok (self', outs) -> P self'.
Proof.
  intros Hstep. induction inputs as [|[frame fps] rest IH]; intros self self' outs HP H.
  - inversion H. now subst.
  - cbn [ProgrammerInvFlowLK.run] in H.
    destruct (process self frame fps) as [[s1 out]|] eqn:Hp; [|discriminate].
    cbn [bind] in H.
    destruct (run s1 rest) as [[s2 outs']|] eqn:Hr; [|discriminate].
    cbn in H. inversion H; subst.
    eapply IH; [|exact Hr]. eapply Hstep; [exact HP|]. apply process_step. exact Hp.
Qed.

(** ** Exceptions *)

(** A tracker result whose flags are not one per returned point, or not one
    per prior point, makes [process] raise IndexError: NumPy refuses the
    mask [st == 1] on [p1] or on [self.p0]. *)
Theorem misaligned_result_raises (self : FlowLK) (frame : Mat) (fps : string)
    (og : Mat) (pts p1 : list Point) (st : list Z) :
  old_gray self = Some og ->
  p0 self = Some pts ->
  calcOpticalFlowPyrLK og (CvtColor frame COLOR_BGR2GRAY) pts (lk_params self)
    = (Some p1, st) ->
  length p1 <> length st \/ length pts <> length st ->
  process self frame fps = Raise IndexError.
Proof.
  intros Hog Hp Hlk Hbad. unfold ProgrammerInvFlowLK.process.
  rewrite Hog, Hp. cbn [getattr bind]. rewrite Hlk.
  unfold bool_index. rewrite !eq1_length.
  destruct (Nat.eqb_spec (length p1) (length st)) as [E1|N1]; [|reflexivity].
  cbn [bind].
  destruct (Nat.eqb_spec (length pts) (length st)) as [E2|N2]; [|reflexivity].
  destruct Hbad; contradiction.
Qed.

(** When more points survive than the palette has colours, [process] raises
    IndexError at [self.color[i]]: the 100 colours of [__init__] only serve
    as long as [maxCorners] is at most 100. *)
Theorem palette_exhausted_raises (self : FlowLK) (frame : Mat) (fps : string)
    (og m : Mat) (pts p1 : list Point) (st : list Z) :
  old_gray self = Some og ->
  p0 self = Some pts ->
  mask self = Some m ->
  calcOpticalFlowPyrLK og (CvtColor frame COLOR_BGR2GRAY) pts (lk_params self)
    = (Some p1, st) ->
  length p1 = length st ->
  length pts = length st ->
  (length (color self) < length (compress p1 (eq1 st)))%nat ->
  process self frame fps = Raise IndexError.
Proof.
  intros Hog Hp Hm Hlk Hn Ho Hmany. unfold ProgrammerInvFlowLK.process.
  rewrite Hog, Hp. cbn [getattr bind]. rewrite Hlk.
  rewrite !bool_index_same_length by (now rewrite eq1_length).
  cbn [bind]. rewrite Hm. rewrite draw_tracks_short; [reflexivity|].
  cbn [skipn]. rewrite length_combine.
  rewrite <- (compress_length_same p1 pts (eq1 st)) by (now rewrite eq1_length).
  lia.
Qed.

(** ** Points that are all lost one by one *)

(** When the tracker returns a result in which no flag is 1, [process]
    stays in TRACKING with an empty point set: it draws nothing, sends the
    frame with the mask added, keeps the mask and stores the gray frame. It
    does not go back to detecting. *)
Theorem all_invalid_stays_tracking (self : FlowLK) (frame : Mat) (fps : string)
    (og m : Mat) (pts p1 : list Point) (st : list Z) :
  old_gray self = Some og ->
  p0 self = Some pts ->
  mask self = Some m ->
  calcOpticalFlowPyrLK og (CvtColor frame COLOR_BGR2GRAY) pts (lk_params self)
    = (Some p1, st) ->
  length p1 = length st ->
  length pts = length st ->
  Forall (fun s => s <> 1) st ->
  exists self',
    process self frame fps = Ok (self', with_fps (Add frame m) fps) /\
    state_of self' = TRACKING /\
    p0 self' = Some [] /\
    mask self' = Some m /\
    old_gray self' = Some (CvtColor frame COLOR_BGR2GRAY) /\
    color self' = color self.
Proof.
  intros Hog Hp Hm Hlk Hn Ho Hst. eexists. split.
  - apply step_process.
    refine (step_tracked _ _ self frame fps og pts p1 st m m frame Hog Hp Hlk Hn Ho Hm _).
    rewrite !compress_none by exact Hst. reflexivity.
  - rewrite compress_none by exact Hst. repeat split.
Qed.

(** ** The mask *)

(** The mask of every object reached from [__init__] is a blank image of
    the size of some frame with lines drawn on it and nothing else: no
    circle and no text ever gets onto the mask, so the circles of one call
    are not seen on the frames sent later. *)
Theorem mask_holds_only_lines (rng : nat -> Z) (inputs : list (Mat * string))
    (self : FlowLK) (outs : list Mat) (m : Mat) :
  run (__init__ rng) inputs = Ok (self, outs) ->
  mask self = Some m ->
  markers m = [] /\
  texts m = [] /\
  exists frame, lines_on (ZerosLike frame) m /\ shape0 m = shape0 frame.
Proof.
  intros Hrun Hm. destruct (reachable_wf _ _ _ _ _ _ Hrun) as (_ & _ & _ & H).
  rewrite Hm in H. destruct (p0 self); [|contradiction].
  destruct H as [_ [frame Hl]].
  destruct (lines_on_drawn _ _ Hl) as (Hmk & Ht & Hs & _).
  split; [exact Hmk|]. split; [exact Ht|].
  exists frame. split; [exact Hl | exact Hs].
Qed.

(** Every line on the mask of an object reached from [__init__] is in one
    of the 100 colours of the palette, and each of these is a triple of
    values from 0 to 254: [randint(0, 255, ...)] never draws 255. *)
Theorem trail_colours_from_palette (rng : nat -> Z) (inputs : list (Mat * string))
    (self : FlowLK) (outs : list Mat) (m : Mat) :
  run (__init__ rng) inputs = Ok (self, outs) ->
  mask self = Some m ->
  Forall (fun seg => In (snd seg) (color self) /\
                     length (snd seg) = 3%nat /\
                     Forall (fun x => 0 <= x <= 254) (snd seg))
         (segments m).
Proof.
  intros Hrun Hm.
  set (P := fun s : FlowLK =>
              color s = color (__init__ rng) /\
              forall m, mask s = Some m ->
                        Forall (fun seg => In (snd seg) (color s)) (segments m)).
  assert (P self) as [Hc Hin].
  { apply (run_preserves P) with (inputs := inputs) (self := __init__ rng) (outs := outs);
      [| split; [reflexivity | discriminate] | exact Hrun].
    clear. intros self frame fps self' out [Hc Hin] Hstep.
    destruct Hstep as [Hog | og pts st m Hog Hp Hlk Hm
                       | og pts p1 st m m' frame' Hog Hp Hlk Hn Ho Hm Hd].
    - split; [exact Hc|]. intros m0 E. inversion E. constructor.
    - split; [exact Hc|]. exact Hin.
    - split; [exact Hc|]. intros m0 E. cbn in E. inversion E; subst m0. cbn [color].
      apply draw_tracks_inv in Hd as (m1 & f1 & E1 & _ & _ & Hseg & _).
      inversion E1; subst m1 f1. rewrite Hseg. apply Forall_app. split; [now apply Hin|].
      apply Forall_forall. intros [pair c] Hc'. cbn [snd]. cbn [skipn] in Hc'.
      eapply in_combine_r. exact Hc'. }
  specialize (Hin m Hm). apply Forall_forall. intros seg Hseg.
  rewrite Forall_forall in Hin. specialize (Hin seg Hseg).
  split; [exact Hin|]. rewrite Hc in Hin.
  destruct (randint_range 0 255 100 3 rng (snd seg) ltac:(lia) Hin) as [Hlen Hrange].
  split; [exact Hlen|]. eapply Forall_impl; [|exact Hrange]. cbn. intros; lia.
Qed.


End MoreSteps.

(** ** On the test scenes *)

(** Two corners and a tracker that returns a single flag. *)
Lemma misaligned_result_raises_witness :
  exists self outs,
    run corners_two lk_one_flag (__init__ counting_rng) (feed 1) = Ok (self, outs) /\
    process corners_two lk_one_flag self (camera 2) "30.0 fps" = Raise IndexError.
Proof.
  eexists _, _. split; [computed|].
  eapply (misaligned_result_raises corners_two lk_one_flag);
    [computed | computed | computed | left; cbn; lia].
Defined.

(** With [maxCorners] at 200 and 150 corners found, the second call needs
    150 colours. *)
Lemma palette_exhausted_raises_witness :
  exists self outs,
    run corners_many lk_keep_all (wide_init counting_rng) (feed 1) = Ok (self, outs) /\
    option_map (@length Point) (p0 self) = Some 150%nat /\
    process corners_many lk_keep_all self (camera 2) "30.0 fps" = Raise IndexError.
Proof.
  eexists _, _. split; [computed|]. split; [computed|].
  eapply (palette_exhausted_raises corners_many lk_keep_all);
    [computed | computed | computed | computed | computed | computed | vm_compute; lia].
Defined.

(** Two corners, both lost on frame 2 without a total failure. *)
Lemma all_invalid_stays_tracking_witness :
  exists self outs self',
    run corners_two lk_all_invalid (__init__ counting_rng) (feed 1) = Ok (self, outs) /\
    process corners_two lk_all_invalid self (camera 2) "30.0 fps"
      = Ok (self', with_fps (Add (camera 2) (ZerosLike (camera 1))) "30.0 fps") /\
    state_of self' = TRACKING /\
    p0 self' = Some [].
Proof.
  exists (acquired corners_two (__init__ counting_rng) (camera 1)). eexists.
  destruct (all_invalid_stays_tracking corners_two lk_all_invalid
              (acquired corners_two (__init__ counting_rng) (camera 1))
              (camera 2) "30.0 fps" _ _ _ _ _
              ltac:(computed) ltac:(computed) ltac:(computed) ltac:(computed)
              ltac:(computed) ltac:(computed)
              ltac:(repeat constructor; discriminate))
    as (self' & Hp & Hs & Hp0 & _).
  exists self'. split; [computed|]. split; [exact Hp|]. split; [exact Hs | exact Hp0].
Defined.

(** The mask of the first scene after two frames. *)
Lemma mask_holds_only_lines_witness :
  exists self outs m,
    run corners_two lk_drop_second (__init__ counting_rng) (feed 2) = Ok (self, outs) /\
    mask self = Some m /\
    markers m = [] /\
    texts m = [].
Proof.
  eexists _, _, _. split; [computed|]. split; [computed|].
  destruct (mask_holds_only_lines corners_two lk_drop_second counting_rng (feed 2) _ _ _
              ltac:(computed) ltac:(computed))
    as (Hm & Ht & _).
  split; [exact Hm | exact Ht].
Defined.

Lemma trail_colours_from_palette_witness :
  exists self outs m,
    run corners_two lk_drop_second (__init__ counting_rng) (feed 2) = Ok (self, outs) /\
    mask self = Some m /\
    Forall (fun seg => In (snd seg) (color self) /\
                       length (snd seg) = 3%nat /\
                       Forall (fun x => 0 <= x <= 254) (snd seg))
           (segments m).
Proof.
  eexists _, _, _. split; [computed|]. split; [computed|].
  apply (trail_colours_from_palette corners_two lk_drop_second counting_rng (feed 2) _ _ _
           ltac:(computed) ltac:(computed)).
Defined.


End FlowLKMore.

(** * The module against the script it ports *)

Module TutorialFacts.

Import Tutorial ProgrammerInvFlowLK FlowLKFacts MoreScenes.

Ltac computed := vm_compute; reflexivity.

Section Port.

Variable corners : Mat -> float -> Z -> Z -> list Point.
Variable calcOpticalFlowPyrLK :
  Mat -> Mat -> list Point -> LKParams -> option (list Point) * list Z.

Local Abbreviation process := (process corners calcOpticalFlowPyrLK).
Local Abbreviation run := (run corners calcOpticalFlowPyrLK).
Local Abbreviation while_1 := (while_1 calcOpticalFlowPyrLK).
Local Abbreviation tutorial := (tutorial corners calcOpticalFlowPyrLK).

(** [script_input], [module_input] and [module_output], unfolded. *)
Local Abbreviation played video :=
  (map (fun x : Mat * Z * string => (fst (fst x), snd (fst x))) video).
Local Abbreviation given video :=
  (map (fun x : Mat * Z * string => (fst (fst x), snd x)) video).
Local Abbreviation sent shown video :=
  (map (fun x : Mat * (Mat * Z * string) => with_fps (fst x) (snd (snd x)))
       (combine shown video)).

(** One turn of the script's loop and one call of [process], when the
    tracker returns points. *)
Lemma turn_vs_process (self : FlowLK) (frame : Mat) (fps : string)
    (og m : Mat) (pts p1 : list Point) (st : list Z) :
  old_gray self = Some og ->
  p0 self = Some pts ->
  mask self = Some m ->
  calcOpticalFlowPyrLK og (CvtColor frame COLOR_BGR2GRAY) pts (lk_params self)
    = (Some p1, st) ->
  match (good_new <- bool_index p1 (eq1 st) ;;
         good_old <- bool_index pts (eq1 st) ;;
         '(mask', frame') <-
           draw_tracks (color self) 0 (combine good_new good_old) (Some m) frame ;;
         Ok (good_new, mask', frame')) with
  | Raise e => process self frame fps = Raise e
  | Ok (good_new, mask', frame') =>
      exists m',
        mask' = Some m' /\
        process self frame fps
        = Ok ({| feature_params := feature_params self; lk_params := lk_params self;
                 color := color self;
                 old_gray := Some (CvtColor frame COLOR_BGR2GRAY);
                 p0 := Some good_new;
                 mask := Some m' |},
              with_fps (Add frame' m') fps)
  end.
Proof.
  intros Hog Hp Hm Hlk. unfold ProgrammerInvFlowLK.process.
  rewrite Hog, Hp. cbn [getattr bind]. rewrite Hlk, Hm.
  destruct (bool_index p1 (eq1 st)) as [good_new|e]; [|reflexivity]. cbn [bind].
  destruct (bool_index pts (eq1 st)) as [good_old|e]; [|reflexivity]. cbn [bind].
  destruct (draw_tracks (color self) 0 (combine good_new good_old) (Some m) frame)
    as [[sm frame']|e] eqn:Hd; [|reflexivity].
  cbn [bind]. apply draw_tracks_inv in Hd as (m' & f' & E & _).
  inversion E; subst sm f'. exists m'. split; reflexivity.
Qed.

(** The script's loop and the module's calls, started in agreement: the
    module sends what the script shows, and where the script stops on a
    [None] the module resets. *)
Lemma while_1_vs_run (video : list (Mat * Z * string)) :
  forall (self : FlowLK) (og m : Mat) (pts : list Point),
    old_gray self = Some og ->
    p0 self = Some pts ->
    mask self = Some m ->
    lk_params self = Tutorial.lk_params ->
    forall shown ending,
      while_1 (color self) og pts m (played video) = (shown, ending) ->
      (exists self',
         run self (firstn (length shown) (given video)) = Ok (self', sent shown video) /\
         (ending = EndOfVideo -> length shown = length video /\ state_of self' = TRACKING)) /\
      (ending = TypeError ->
       exists self' last,
         run self (firstn (S (length shown)) (given video))
         = Ok (self', sent shown video ++ [last]) /\
         state_of self' = UNINITIALIZED /\
         (length shown < length video)%nat) /\
      (forall e, ending = Raised e -> run self (given video) = Raise e).
Proof.
  induction video as [|[[frame key] fps] rest IH];
    intros self og m pts Hog Hp Hm Hlk shown ending H.
  - cbn in H. inversion H; subst shown ending. split; [|split]; try discriminate.
    exists self. split; [reflexivity|]. intros _. split; [reflexivity|].
    unfold state_of. now rewrite Hog.
  - cbn [map fst snd Tutorial.while_1] in H. rewrite <- Hlk in H.
    destruct (calcOpticalFlowPyrLK og (CvtColor frame COLOR_BGR2GRAY) pts (lk_params self))
      as [[p1|] st] eqn:Hcalc.
    + pose proof (turn_vs_process self frame fps og m pts p1 st Hog Hp Hm Hcalc) as Hturn.
      destruct (good_new <- bool_index p1 (eq1 st) ;; _) as [[[good_new mask'] frame']|e].
      * destruct Hturn as (m' & -> & Hproc).
        set (self1 := {| feature_params := feature_params self; lk_params := lk_params self;
                         color := color self;
                         old_gray := Some (CvtColor frame COLOR_BGR2GRAY);
                         p0 := Some good_new; mask := Some m' |}) in *.
        destruct (Z.land key 255 =? 27).
        -- inversion H; subst shown ending. split; [|split]; try discriminate.
           exists self1. split; [|discriminate].
           cbn [length firstn map fst snd ProgrammerInvFlowLK.run combine].
           rewrite Hproc. reflexivity.
        -- destruct (while_1 (color self) (CvtColor frame COLOR_BGR2GRAY) good_new m'
                       (played rest)) as [shown' ending'] eqn:Hrest.
           inversion H; subst shown ending. clear H.
           destruct (IH self1 (CvtColor frame COLOR_BGR2GRAY) m' good_new
                       eq_refl eq_refl eq_refl Hlk shown' ending' Hrest)
             as ((s2 & Hrun & Hend) & Htype & Hraise).
           split; [|split].
           ++ exists s2. split.
              ** cbn [length firstn map fst snd ProgrammerInvFlowLK.run combine].
                 rewrite Hproc. cbn [bind]. rewrite Hrun. reflexivity.
              ** intros E. destruct (Hend E) as [Hlen Hs].
                 split; [cbn; now rewrite Hlen | exact Hs].
           ++ intros E. destruct (Htype E) as (s3 & last & Hrun3 & Hs3 & Hlen3).
              exists s3, last. split; [|split; [exact Hs3 | cbn [length]; lia]].
              cbn [length firstn map fst snd ProgrammerInvFlowLK.run combine].
              rewrite Hproc. cbn [bind].
              cbn [length firstn] in Hrun3. rewrite Hrun3. reflexivity.
           ++ intros e E. cbn [map fst snd ProgrammerInvFlowLK.run].
              rewrite Hproc. cbn [bind]. rewrite (Hraise e E). reflexivity.
      * inversion H; subst shown ending. split; [|split]; try discriminate.
        -- exists self. split; [reflexivity | discriminate].
        -- intros e' E. inversion E; subst e'.
           cbn [map fst snd ProgrammerInvFlowLK.run]. rewrite Hturn. reflexivity.
    + inversion H; subst shown ending. split; [|split]; try discriminate.
      * exists self. split; [reflexivity | discriminate].
      * intros _. exists (set_old_gray None self), (with_fps (Add frame m) fps).
        split; [|split; [reflexivity | cbn [length]; lia]].
        cbn [length firstn map fst snd ProgrammerInvFlowLK.run combine app].
        rewrite (step_process corners calcOpticalFlowPyrLK _ _ _ _ _
                   (step_lost _ _ self frame fps og pts st m Hog Hp Hcalc Hm)).
        reflexivity.
Qed.


(** Where the script stops because the tracker returns [None] (it indexes
    [p1] without a test), the module goes on: given the same frames up to
    that one, it sends one more frame than the script has shown and is
    UNINITIALIZED, ready to detect again. *)
Theorem module_recovers_where_script_stops (rng : nat -> Z) (old_frame : Mat) (fps : string)
    (video : list (Mat * Z * string)) (shown : list Mat) :
  tutorial rng old_frame (script_input video) = (shown, TypeError) ->
  exists self last,
    run (__init__ rng)
        ((old_frame, fps) :: firstn (S (length shown)) (module_input video))
    = Ok (self, with_fps old_frame fps :: module_output shown video ++ [last]) /\
    state_of self = UNINITIALIZED /\
    (length shown < length video)%nat.
Proof.
  unfold Tutorial.tutorial, script_input, module_input, module_output. intros Hw.
  set (self1 := acquired corners (__init__ rng) old_frame).
  destruct (while_1_vs_run video self1 _ _ _ eq_refl eq_refl eq_refl eq_refl shown _ Hw)
    as (_ & Htype & _).
  destruct (Htype eq_refl) as (self' & last & Hrun & Hs & Hlen).
  exists self', last. split; [|split; [exact Hs | exact Hlen]].
  cbn [ProgrammerInvFlowLK.run].
  change (process (__init__ rng) old_frame fps) with (Ok (self1, with_fps old_frame fps)).
  cbn [bind]. rewrite Hrun. reflexivity.
Qed.



End Port.

(** The first scene: the script shows frame 2 and stops on frame 3, where
    the module sends a second frame and resets. *)
Lemma module_recovers_where_script_stops_witness :
  exists shown self last,
    tutorial corners_two lk_drop_second counting_rng (camera 1) (script_input (video 2))
    = (shown, TypeError) /\
    length shown = 1%nat /\
    run corners_two lk_drop_second (__init__ counting_rng)
        ((camera 1, "30.0 fps"%string) :: firstn 2 (module_input (video 2)))
    = Ok (self, with_fps (camera 1) "30.0 fps" :: module_output shown (video 2) ++ [last]) /\
    state_of self = UNINITIALIZED.
Proof.
  eexists. 
  destruct (module_recovers_where_script_stops corners_two lk_drop_second counting_rng
              (camera 1) "30.0 fps" (video 2) _ ltac:(computed))
    as (self & last & Hrun & Hs & _).
  exists self, last. split; [computed|]. split; [computed|]. split; [exact Hrun | exact Hs].
Defined.


End TutorialFacts.

(** * More facts about the Arduino sketch *)

Module ArdublinkMore.

Import Ardublink ArdublinkFacts.

(** ** What [readBytesUntil] leaves in the buffer *)

Lemma readBytesUntil_length (terminator : ascii) (incoming : list ascii) :
  forall n, (length (fst (readBytesUntil terminator incoming n)) <= n)%nat.
Proof.
  induction incoming as [|c incoming IH]; intros [|n]; cbn [readBytesUntil]; try (cbn; lia).
  destruct (Ascii.eqb c terminator); [cbn; lia|].
  specialize (IH n). destruct (readBytesUntil terminator incoming n). cbn in *. lia.
Qed.

(** No terminator among the first [n] bytes: they are all stored and the
    terminator, if one follows, stays on the port. *)
Lemma readBytesUntil_full (terminator : ascii) (incoming : list ascii) :
  forall n,
    (n <= length incoming)%nat ->
    Forall (fun c => c <> terminator) (firstn n incoming) ->
    readBytesUntil terminator incoming n = (firstn n incoming, skipn n incoming).
Proof.
  induction incoming as [|c incoming IH]; intros [|n] Hn Hf; cbn in *; try lia; trivial.
  inversion Hf as [|? ? Hc Hf']; subst.
  destruct (Ascii.eqb_spec c terminator); [contradiction|].
  rewrite IH by (trivial; lia). reflexivity.
Qed.

(** The time-out ends a line that has no terminator. *)
Lemma readBytesUntil_timeout (terminator : ascii) (line : list ascii) :
  forall n,
    (length line <= n)%nat ->
    Forall (fun c => c <> terminator) line ->
    readBytesUntil terminator line n = (line, []).
Proof.
  induction line as [|c line IH]; intros [|n] Hn Hf; cbn in *; try lia; trivial.
  inversion Hf as [|? ? Hc Hf']; subst.
  destruct (Ascii.eqb_spec c terminator); [contradiction|].
  rewrite IH by (trivial; lia). reflexivity.
Qed.

Lemma cstring_no_nul (buffer : list ascii) : Forall (fun c => c <> NUL) (cstring buffer).
Proof.
  induction buffer as [|c buffer IH]; cbn [cstring]; [constructor|].
  destruct (Ascii.eqb_spec c NUL); constructor; trivial.
Qed.

(** What follows a NUL is not part of the string. *)
Lemma cstring_cut (a b : list ascii) : cstring (a ++ NUL :: b) = cstring (a ++ [NUL]).
Proof.
  induction a as [|c a IH]; cbn [app cstring].
  - reflexivity.
  - destruct (Ascii.eqb c NUL); [reflexivity | now rewrite IH].
Qed.

(** The level [loop] writes is decided by the bytes stored up to the first
    NUL among them, none when 256 are stored. *)
Lemma loop_parses (instr incoming : list ascii) :
  length instr = S INLEN ->
  loop instr incoming
  = (Some (if wanted (if (length (fst (readBytesUntil "010" incoming INLEN)) =? INLEN)%nat
                      then []
                      else cstring (fst (readBytesUntil "010" incoming INLEN) ++ [NUL]))
           then LOW else HIGH),
     snd (readBytesUntil "010" incoming INLEN)).
Proof.
  intros Hi. unfold loop.
  pose proof (readBytesUntil_length "010" incoming INLEN) as Hlen.
  destruct (readBytesUntil "010" incoming INLEN) as [got rest]. cbn [fst snd] in *.
  assert (cstring (poke (store instr got) (byte (length got)) NUL)
          = if (length got =? INLEN)%nat then [] else cstring (got ++ [NUL])) as ->.
  { unfold INLEN in *. rewrite store_app by lia. unfold byte.
    destruct (Nat.eqb_spec (length got) 256) as [E|N].
    - rewrite E. change (256 mod 256)%nat with 0%nat.
      destruct got as [|c got]; [discriminate|]. reflexivity.
    - rewrite Nat.mod_small by lia.
      destruct (skipn (length got) instr) as [|x tail] eqn:Hs.
      + apply (f_equal (@length ascii)) in Hs. rewrite length_skipn in Hs. cbn in Hs. lia.
      + rewrite poke_app. apply cstring_cut. }
  set (s := if (length got =? INLEN)%nat then [] else cstring (got ++ [NUL])).
  assert (Forall (fun c => c <> NUL) s) as Hs.
  { subst s. destruct (length got =? INLEN)%nat; [constructor | apply cstring_no_nul]. }
  pose proof (while_tok_tokens (S (length s)) s 0 (Nat.lt_succ_diag_r _)) as Hw.
  destruct (strtok s delimiters) as [tok saved]. cbn [fst snd] in Hw. rewrite Hw.
  rewrite fold_switch_0 by (apply tokens_Forall; [exact Hs | constructor]).
  reflexivity.
Qed.

(** ** What the buffer held before *)

(** The bytes a previous line left in the buffer never take part: whatever
    the buffer holds, [loop] writes the same level and leaves the same bytes
    on the port. *)
Theorem stale_buffer_is_ignored (instr1 instr2 incoming : list ascii) :
  length instr1 = S INLEN ->
  length instr2 = S INLEN ->
  loop instr1 incoming = loop instr2 incoming.
Proof. intros H1 H2. now rewrite !loop_parses. Qed.

(** ** Lines that are cut *)

(** When the time-out ends a line before its newline has come, [loop]
    parses what it has as if it were the whole line; in particular it turns
    the LED off when nothing has come. *)
Theorem timed_out_line_is_parsed (instr line : list ascii) :
  length instr = S INLEN ->
  (length line < INLEN)%nat ->
  Forall (fun c => c <> NUL) line ->
  Forall (fun c => c <> "010"%char) line ->
  loop instr line = (Some (if wanted line then LOW else HIGH), []) /\
  loop instr [] = (Some HIGH, []).
Proof.
  intros Hi Hl Hnul Hlf. split.
  - rewrite loop_parses by exact Hi.
    rewrite readBytesUntil_timeout by (trivial; lia). cbn [fst snd].
    destruct (Nat.eqb_spec (length line) INLEN); [lia|].
    change [NUL] with (NUL :: []). now rewrite cstring_app.
  - now rewrite loop_parses.
Qed.

(** When 256 bytes come without a newline, [loop] takes exactly these 256
    bytes off the port, parses none of them and turns the LED off, whatever
    they say; what follows is left for the next iteration. *)
Theorem overlong_line_is_dropped (instr incoming : list ascii) :
  length instr = S INLEN ->
  (INLEN <= length incoming)%nat ->
  Forall (fun c => c <> "010"%char) (firstn INLEN incoming) ->
  loop instr incoming = (Some HIGH, skipn INLEN incoming).
Proof.
  intros Hi Hl Hlf. rewrite loop_parses by exact Hi.
  rewrite readBytesUntil_full by trivial. cbn [fst snd].
  rewrite length_firstn, Nat.min_l by exact Hl. now rewrite Nat.eqb_refl.
Qed.

(** A NUL byte in a line of fewer than 256 bytes ends what [loop] parses
    of it: the bytes after it are read off the port and ignored. *)
Theorem nul_byte_cuts_line (instr before after more : list ascii) :
  length instr = S INLEN ->
  (length (before ++ NUL :: after) < INLEN)%nat ->
  Forall (fun c => c <> NUL) before ->
  Forall (fun c => c <> "010"%char) (before ++ NUL :: after) ->
  loop instr ((before ++ NUL :: after) ++ "010"%char :: more)
  = (Some (if wanted before then LOW else HIGH), more).
Proof.
  intros Hi Hl Hnul Hlf. rewrite loop_parses by exact Hi.
  rewrite readBytesUntil_line by (trivial; unfold INLEN in *; lia). cbn [fst snd].
  destruct (Nat.eqb_spec (length (before ++ NUL :: after)) INLEN); [lia|].
  rewrite <- app_assoc. cbn [app]. now rewrite cstring_app.
Qed.

(** ** The score *)

Lemma tokens_one (s : list ascii) :
  forall cur,
    Forall (fun c => is_delim delimiters c = false) s ->
    tokens s cur = match cur ++ s with [] => [] | tok => [tok] end.
Proof.
  induction s as [|c s IH]; intros cur Hs; cbn [tokens].
  - rewrite app_nil_r. destruct cur; reflexivity.
  - inversion Hs as [|? ? Hc Hs']; subst. rewrite Hc.
    rewrite IH by exact Hs'. rewrite <- app_assoc. reflexivity.
Qed.

Lemma before_last_colon_none (s : list ascii) :
  Forall (fun c => c <> ":"%char) s -> before_last_colon s = None.
Proof.
  induction 1 as [|c s Hc Hs IH]; cbn [before_last_colon]; [reflexivity|].
  rewrite IH. destruct (Ascii.eqb_spec c ":"); [contradiction | reflexivity].
Qed.

Lemma before_last_colon_score (a s : list ascii) :
  Forall (fun c => c <> ":"%char) s -> before_last_colon (a ++ ":"%char :: s) = Some a.
Proof.
  intros Hs. induction a as [|c a IH]; cbn [app before_last_colon].
  - now rewrite before_last_colon_none.
  - now rewrite IH.
Qed.

(** The text after the colon plays no part: in a line of fewer than 256
    bytes, DO followed by the category lights the LED whatever score comes
    with it. *)
Theorem any_score_lights (instr score more : list ascii) :
  length instr = S INLEN ->
  (length (list_ascii_of_string "DO computer_keyboard:" ++ score) < INLEN)%nat ->
  Forall (fun c => c <> ":"%char /\ c <> NUL /\ is_delim delimiters c = false) score ->
  loop instr (list_ascii_of_string "DO computer_keyboard:" ++ score ++ "010"%char :: more)
  = (Some LOW, more).
Proof.
  intros Hi Hl Hs.
  assert (Forall (fun c => c <> ":"%char) score) as Hcolon
    by (eapply Forall_impl; [|exact Hs]; cbn; tauto).
  assert (Forall (fun c => c <> NUL) score) as Hnul
    by (eapply Forall_impl; [|exact Hs]; cbn; tauto).
  assert (Forall (fun c => is_delim delimiters c = false) score) as Hdelim
    by (eapply Forall_impl; [|exact Hs]; cbn; tauto).
  assert (Forall (fun c => c <> "010"%char) score) as Hlf.
  { eapply Forall_impl; [|exact Hdelim]. cbn beta. intros c Hc ->. discriminate Hc. }
  set (line := list_ascii_of_string "DO computer_keyboard:" ++ score).
  assert (length line < INLEN)%nat as Hlen by exact Hl.
  assert (Forall (fun c => c <> NUL) line) as Hline_nul
    by (apply Forall_app; split; [repeat constructor; discriminate | exact Hnul]).
  assert (Forall (fun c => c <> "010"%char) line) as Hline_lf
    by (apply Forall_app; split; [repeat constructor; discriminate | exact Hlf]).
  rewrite app_assoc. fold line. rewrite loop_parses by exact Hi.
  rewrite readBytesUntil_line by (trivial; unfold INLEN in *; lia). cbn [fst snd].
  destruct (Nat.eqb_spec (length line) INLEN); [lia|].
  change [NUL] with (NUL :: []). rewrite cstring_app by exact Hline_nul.
  replace (wanted line) with true; [reflexivity|].
  subst line. unfold wanted. cbn [list_ascii_of_string app].
  cbn -[eqb_chars category_of CATEGORY].
  rewrite tokens_one by exact Hdelim. cbn [app existsb].
  change (category_of _) with (category_of (CATEGORY ++ ":"%char :: score)).
  unfold category_of. rewrite before_last_colon_score by exact Hcolon.
  reflexivity.
Qed.

(** ** Lines of one token *)

(** A line with no space, carriage return or line feed in it is one token
    and never lights the LED: DO alone does not, and neither does a line
    whose words are separated by tabs. *)
Theorem one_token_never_lights (instr line more : list ascii) :
  length instr = S INLEN ->
  (length line < INLEN)%nat ->
  Forall (fun c => c <> NUL /\ is_delim delimiters c = false) line ->
  loop instr (line ++ "010"%char :: more) = (Some HIGH, more).
Proof.
  intros Hi Hl Hs.
  assert (Forall (fun c => c <> NUL) line) as Hnul
    by (eapply Forall_impl; [|exact Hs]; cbn; tauto).
  assert (Forall (fun c => is_delim delimiters c = false) line) as Hdelim
    by (eapply Forall_impl; [|exact Hs]; cbn; tauto).
  assert (Forall (fun c => c <> "010"%char) line) as Hlf.
  { eapply Forall_impl; [|exact Hdelim]. cbn beta. intros c Hc ->. discriminate Hc. }
  rewrite loop_parses by exact Hi.
  rewrite readBytesUntil_line by (trivial; unfold INLEN in *; lia). cbn [fst snd].
  destruct (Nat.eqb_spec (length line) INLEN); [lia|].
  change [NUL] with (NUL :: []). rewrite cstring_app by exact Hnul.
  replace (wanted line) with false; [reflexivity|].
  unfold wanted. rewrite tokens_one by exact Hdelim. cbn [app].
  destruct line; [reflexivity|]. cbn [existsb]. now rewrite andb_false_r.
Qed.

(** ** On sample lines *)

(** A buffer that still holds a line naming the category, and a new line
    that does not. *)
Lemma stale_buffer_is_ignored_witness :
  loop (list_ascii_of_string "DO computer_keyboard:0.9" ++ repeat NUL 233)
       (list_ascii_of_string "DO mouse:0.9" ++ ["010"%char])
  = loop (repeat NUL 257) (list_ascii_of_string "DO mouse:0.9" ++ ["010"%char]) /\
  loop (repeat NUL 257) (list_ascii_of_string "DO mouse:0.9" ++ ["010"%char])
  = (Some HIGH, []).
Proof.
  split.
  - apply stale_buffer_is_ignored; reflexivity.
  - vm_compute. reflexivity.
Defined.

(** A line cut by the time-out after the category and before its score. *)
Lemma timed_out_line_is_parsed_witness :
  loop (repeat NUL 257) (list_ascii_of_string "DO computer_keyboard") = (Some LOW, []).
Proof.
  apply (timed_out_line_is_parsed (repeat NUL 257)
           (list_ascii_of_string "DO computer_keyboard")).
  - reflexivity.
  - vm_compute. lia.
  - repeat constructor; discriminate.
  - repeat constructor; discriminate.
Defined.

(** The 256 bytes of [long_line] followed by a short line. *)
Lemma overlong_line_is_dropped_witness :
  loop (repeat NUL 257) (long_line ++ list_ascii_of_string " DO computer_keyboard:1")
  = (Some HIGH, list_ascii_of_string " DO computer_keyboard:1").
Proof.
  apply (overlong_line_is_dropped (repeat NUL 257)
           (long_line ++ list_ascii_of_string " DO computer_keyboard:1")).
  - reflexivity.
  - vm_compute. lia.
  - vm_compute. repeat constructor; discriminate.
Defined.

(** A NUL byte between DO and the category. *)
Lemma nul_byte_cuts_line_witness :
  loop (repeat NUL 257)
       ((list_ascii_of_string "DO x" ++ NUL :: list_ascii_of_string " computer_keyboard:1")
        ++ ["010"%char])
  = (Some HIGH, []).
Proof.
  apply (nul_byte_cuts_line (repeat NUL 257) (list_ascii_of_string "DO x")
           (list_ascii_of_string " computer_keyboard:1") []).
  - reflexivity.
  - vm_compute. lia.
  - repeat constructor; discriminate.
  - repeat constructor; discriminate.
Defined.

(** A score of zero. *)
Lemma any_score_lights_witness :
  loop (repeat NUL 257) (list_ascii_of_string "DO computer_keyboard:0.0" ++ ["010"%char])
  = (Some LOW, []).
Proof.
  apply (any_score_lights (repeat NUL 257) (list_ascii_of_string "0.0") []).
  - reflexivity.
  - vm_compute. lia.
  - repeat constructor; discriminate.
Defined.

(** DO and the category separated by a tab. *)
Lemma one_token_never_lights_witness :
  loop (repeat NUL 257)
       (list_ascii_of_string "DO" ++ "009"%char :: list_ascii_of_string "computer_keyboard:0.9"
        ++ ["010"%char])
  = (Some HIGH, []).
Proof.
  apply (one_token_never_lights (repeat NUL 257)
           (list_ascii_of_string "DO" ++ "009"%char
            :: list_ascii_of_string "computer_keyboard:0.9") []).
  - reflexivity.
  - vm_compute. lia.
  - repeat constructor; discriminate.
Defined.

End ArdublinkMore.
